(** * ScheduleView: the dashboard view of the appointment front end

    A shallow embedding of [src/frontend/src/views/ScheduleView.vue]:
    the reactive state of the component, its handlers ([getRemoteEvents],
    [getFirstSchedule], [schedulePreview], [onDateChange], [onMounted])
    and the interleaving of the asynchronous fetches they start, followed
    by the availability engine described by the specification.

    An asynchronous handler is cut at its [await]s.  The event that
    calls the handler runs it up to its first suspension, which sends a
    request and leaves it in flight; a [Settle] event, whenever the
    outside world chooses, takes a request out of flight and runs what
    follows the [await].  Between two events nothing else runs, as on
    the single thread of the page. *)

From Stdlib Require Import ZArith Lia Ascii String List Bool Sorted DecimalString.
From stdpp Require Import gmap strings list fin_maps.

Local Open Scope Z_scope.

(** ** The date library

    The component receives its date library by injection ([dj]).  A date
    object is a point on the local time line in milliseconds, or the
    invalid date.  The local time zone is taken to be a fixed offset,
    folded into the time line. *)

Module Dayjs.

Definition msPerMinute : Z := 60000.
Definition msPerDay : Z := 86400000.

(** [None] is the invalid date. *)
Definition t : Type := option Z.

(** A JavaScript number, as far as the component computes with one. *)
Inductive num : Type :=
| Num (z : Z)
| NaN.

(** *** Civil calendar *)

Definition is_leap (y : Z) : bool :=
  ((y mod 4 =? 0) && negb (y mod 100 =? 0)) || (y mod 400 =? 0).

(** Number of the first day of year [y], counted from 1970-01-01. *)
Definition day_from_year (y : Z) : Z :=
  365 * (y - 1970) + (y - 1969) / 4 - (y - 1901) / 100 + (y - 1601) / 400.

Definition days_in_year (y : Z) : Z := if is_leap y then 366 else 365.

(** The year a day number lies in: an estimate, corrected by one. *)
Definition year_from_day (d : Z) : Z :=
  let y0 := 1970 + (d * 400) / 146097 in
  if d <? day_from_year y0 then y0 - 1
  else if day_from_year (y0 + 1) <=? d then y0 + 1
  else y0.

(** Days before month [m] (1..12) in a year. *)
Definition days_before_month (leap : bool) (m : Z) : Z :=
  let l := if leap then 1 else 0 in
  if m <=? 1 then 0
  else if m =? 2 then 31
  else if m =? 3 then 59 + l
  else if m =? 4 then 90 + l
  else if m =? 5 then 120 + l
  else if m =? 6 then 151 + l
  else if m =? 7 then 181 + l
  else if m =? 8 then 212 + l
  else if m =? 9 then 243 + l
  else if m =? 10 then 273 + l
  else if m =? 11 then 304 + l
  else 334 + l.

Definition month_length (leap : bool) (m : Z) : Z :=
  if m =? 2 then (if leap then 29 else 28)
  else if (m =? 4) || (m =? 6) || (m =? 9) || (m =? 11) then 30
  else 31.

Definition days_in_month (y m : Z) : Z := month_length (is_leap y) m.

(** The month (1..12) of the day with index [doy] (from 0) in a year. *)
Definition month_from_doy (leap : bool) (doy : Z) : Z :=
  if doy <? days_before_month leap 2 then 1
  else if doy <? days_before_month leap 3 then 2
  else if doy <? days_before_month leap 4 then 3
  else if doy <? days_before_month leap 5 then 4
  else if doy <? days_before_month leap 6 then 5
  else if doy <? days_before_month leap 7 then 6
  else if doy <? days_before_month leap 8 then 7
  else if doy <? days_before_month leap 9 then 8
  else if doy <? days_before_month leap 10 then 9
  else if doy <? days_before_month leap 11 then 10
  else if doy <? days_before_month leap 12 then 11
  else 12.

(** Day number of a civil date; months outside 1..12 carry into the
    year and days outside the month carry into the months, as the
    host's date constructor does. *)
Definition day_of_civil (y m d : Z) : Z :=
  let ym := y + (m - 1) / 12 in
  let mn := (m - 1) mod 12 + 1 in
  day_from_year ym + days_before_month (is_leap ym) mn + (d - 1).

Record civil : Type := Civil { year : Z; month : Z; day : Z }.

Definition civil_of_day (n : Z) : civil :=
  let y := year_from_day n in
  let doy := n - day_from_year y in
  let m := month_from_doy (is_leap y) doy in
  Civil y m (doy - days_before_month (is_leap y) m + 1).

Definition civil_of_ms (ms : Z) : civil := civil_of_day (ms / msPerDay).

(** *** Formatting *)

Definition digit (n : Z) : ascii := ascii_of_nat (48 + Z.to_nat (n mod 10)).

Definition pad2 (n : Z) : string :=
  String (digit (n / 10)) (String (digit n) EmptyString).

(** A number as a template literal prints it. *)
Definition decimal (n : Z) : string := NilZero.string_of_int (Z.to_int n).

(** [s.padStart(k, '0')] *)
Definition pad_start (k : nat) (s : string) : string :=
  String.concat "" (repeat "0" (k - String.length s)) +:+ s.

(** [YYYY]: the year padded with zeros to four characters. *)
Definition pad4 (n : Z) : string :=
  if (0 <=? n) && (n <? 10000)
  then String (digit (n / 1000)) (String (digit (n / 100)) (pad2 n))
  else pad_start 4 (decimal n).

Definition invalid_date : string := "Invalid Date".

Definition ymd (c : civil) : string :=
  pad4 (year c) +:+ "-" +:+ pad2 (month c) +:+ "-" +:+ pad2 (day c).

Definition ym (c : civil) : string := pad4 (year c) +:+ pad2 (month c).

(** [format('YYYY-MM-DD')] *)
Definition format_ymd (x : t) : string :=
  match x with
  | None => invalid_date
  | Some ms => ymd (civil_of_ms ms)
  end.

(** [format('YYYYMM')] *)
Definition format_ym (x : t) : string :=
  match x with
  | None => invalid_date
  | Some ms => ym (civil_of_ms ms)
  end.

(** *** Parsing of the [YYYY-MM-DD] form *)

Definition digit_val (c : ascii) : option Z :=
  let n := Z.of_nat (nat_of_ascii c) in
  if (48 <=? n) && (n <=? 57) then Some (n - 48) else None.

Definition is_dash (c : ascii) : bool := Ascii.eqb c "-"%char.

(** The host's date constructor, given its fields, reads a year from 0
    to 99 as 19xx. *)
Definition host_year (y : Z) : Z := if (0 <=? y) && (y <? 100) then 1900 + y else y.

Definition parse_ymd (s : string) : option Z :=
  match s with
  | String y1 (String y2 (String y3 (String y4 (String s1
      (String m1 (String m2 (String s2 (String d1 (String d2 EmptyString))))))))) =>
      match digit_val y1, digit_val y2, digit_val y3, digit_val y4,
            digit_val m1, digit_val m2, digit_val d1, digit_val d2 with
      | Some a, Some b, Some c, Some d, Some e, Some f, Some g, Some h =>
          if is_dash s1 && is_dash s2
          then Some (day_of_civil (host_year (1000 * a + 100 * b + 10 * c + d))
                                  (10 * e + f) (10 * g + h) * msPerDay)
          else None
      | _, _, _, _, _, _, _, _ => None
      end
  | _ => None
  end.

(** *** Arithmetic on dates *)

(** [x.add(n, 'day')] *)
Definition add_days (n : Z) (x : t) : t :=
  match x with Some ms => Some (ms + n * msPerDay) | None => None end.

(** [a.diff(b, 'minutes')]: whole minutes, truncated towards zero. *)
Definition diff_minutes (a b : t) : num :=
  match a, b with
  | Some x, Some y => Num (Z.quot (x - y) msPerMinute)
  | _, _ => NaN
  end.

(** [x.add(n / k, 'minutes')] for a number [n] and a literal divisor
    [k]: the time value is moved by [n / k] minutes and clipped to
    whole milliseconds. *)
Definition add_minutes_div (n : num) (k : Z) (x : t) : t :=
  match x, n with
  | Some ms, Num z => Some (ms + Z.quot (z * msPerMinute) k)
  | _, _ => None
  end.

(** [x.startOf('month')] and [x.endOf('month')]: the library builds
    both with the host's date constructor, from the year and the month
    of [x], so a year from 0 to 99 lands in 19xx. *)
Definition startOf_month (x : t) : t :=
  match x with
  | Some ms =>
      let c := civil_of_ms ms in
      Some (day_of_civil (host_year (year c)) (month c) 1 * msPerDay)
  | None => None
  end.

Definition endOf_month (x : t) : t :=
  match x with
  | Some ms =>
      let c := civil_of_ms ms in
      Some (day_of_civil (host_year (year c)) (month c + 1) 1 * msPerDay - 1)
  | None => None
  end.

(** The dates whose year the host's date constructor keeps: every date
    but those of the years 0 to 99. *)
Definition year_kept (x : t) : Prop :=
  match x with
  | Some ms => ~ (0 <= year (civil_of_ms ms) <= 99)
  | None => True
  end.

(** *** The calendar, for stating properties *)

Definition valid_civil (c : civil) : Prop :=
  1 <= month c <= 12 /\ 1 <= day c <= days_in_month (year c) (month c).

(** The day after a civil date. *)
Definition next_day (c : civil) : civil :=
  if day c <? days_in_month (year c) (month c) then Civil (year c) (month c) (day c + 1)
  else if month c <? 12 then Civil (year c) (month c + 1) 1
  else Civil (year c + 1) 1 1.

End Dayjs.

(** ** Values exchanged with the back end *)

(** A JSON value, as delivered by the fetch wrapper. *)
#[local] Unset Elimination Schemes.
Inductive value : Type :=
| VNull
| VBool (b : bool)
| VNum (n : Dayjs.num)
| VStr (s : string)
| VArr (items : list value)
| VObj (fields : list (string * value)).
#[local] Set Elimination Schemes.

(** [RemoteEvent]: an object of the remote event list; only its [start]
    and [end] members are read, every member is carried along. *)
Abbreviation RemoteEvent := (gmap string value).

(** [ScheduleAppointment]: the payload of the [updated] event, opaque here. *)
Abbreviation ScheduleAppointment := (gmap string value).

(** The enumerations of [@/definitions], with the members this
    component names; the other members are not told apart. *)
Module EventLocationType.
Inductive t : Type :=
| InPerson
| Other (tag : Z).
End EventLocationType.

Module MeetingLinkProviderType.
Inductive t : Type :=
| None
| Other (tag : string).
End MeetingLinkProviderType.

Module BookingCalendarView.
Inductive t : Type :=
| Month
| Other (tag : Z).
End BookingCalendarView.

Module Calendar.
Record t : Type := Build {
  id : Z;
  title : string;
  color : string;
  connected : bool;
}.
End Calendar.

Module Schedule.
Record t : Type := Build {
  active : bool;
  name : string;
  calendar_id : Z;
  location_type : EventLocationType.t;
  location_url : string;
  details : string;
  start_date : string;
  end_date : option string;
  start_time : string;
  end_time : string;
  earliest_booking : Z;
  farthest_booking : Z;
  weekdays : list Z;
  slot_duration : Z;
  meeting_link_provider : MeetingLinkProviderType.t;
  booking_confirmation : bool;
  calendar : Calendar.t;
}.
End Schedule.

(** [TimeFormatted]: the payload of the calendar's [date-change] event. *)
Module TimeFormatted.
Record t : Type := Build { start : string; end_ : string }.
End TimeFormatted.

Module DateRange.
Record t : Type := Build { start : Dayjs.t; end_ : Dayjs.t }.
End DateRange.

(** ** The component *)

(** A fetch that has been started and not yet settled. *)
Inductive Pending : Type :=
| PRefresh                      (* [onMounted] waits for [refresh()] *)
| PSchedule (mounting : bool)   (* [getFirstSchedule] waits for [call('schedule/')];
                                   [mounting]: [onMounted] goes on after it *)
| PRemote (url : string).       (* a branch of [getRemoteEvents] waits for [call(url)] *)

(** How the outside world settles a fetch. *)
Inductive Reply : Type :=
| RefreshDone
| ScheduleData (data : option (list Schedule.t))   (* [None]: not a list *)
| RemoteData (data : option (list RemoteEvent))    (* [None]: not an array *)
| Rejected.

(** What the component asks of the outside world. *)
Inductive Effect : Type :=
| ERefresh
| ECall (url : string).

Inductive Event : Type :=
| Mounted (route_name : option string)
| DateChange (dateObj : TimeFormatted.t)
| Created
| Updated (schedule : option ScheduleAppointment)
| CalendarsChanged (calendars : list Calendar.t)
| Settle (p : Pending) (r : Reply).

(** The reactive state of the component, the part of the calendar store
    it reads, and the fetches in flight.  ([pendingAppointments] of the
    appointment store is only handed to the template.) *)
Record State : Type := mkState {
  activeDate : Dayjs.t;
  activeDateRange : DateRange.t;
  tabActive : BookingCalendarView.t;
  calendarEvents : list RemoteEvent;
  schedules : option (list Schedule.t);
  schedulesReady : bool;
  schedulesPreviews : list ScheduleAppointment;
  connectedCalendars : list Calendar.t;   (* calendar store *)
  inflight : list Pending;
}.

Definition set_activeDate (v : Dayjs.t) (s : State) : State :=
  mkState v (activeDateRange s) (tabActive s) (calendarEvents s) (schedules s)
          (schedulesReady s) (schedulesPreviews s) (connectedCalendars s) (inflight s).

Definition set_calendarEvents (v : list RemoteEvent) (s : State) : State :=
  mkState (activeDate s) (activeDateRange s) (tabActive s) v (schedules s)
          (schedulesReady s) (schedulesPreviews s) (connectedCalendars s) (inflight s).

Definition set_schedules (v : option (list Schedule.t)) (s : State) : State :=
  mkState (activeDate s) (activeDateRange s) (tabActive s) (calendarEvents s) v
          (schedulesReady s) (schedulesPreviews s) (connectedCalendars s) (inflight s).

Definition set_schedulesReady (v : bool) (s : State) : State :=
  mkState (activeDate s) (activeDateRange s) (tabActive s) (calendarEvents s) (schedules s)
          v (schedulesPreviews s) (connectedCalendars s) (inflight s).

Definition set_schedulesPreviews (v : list ScheduleAppointment) (s : State) : State :=
  mkState (activeDate s) (activeDateRange s) (tabActive s) (calendarEvents s) (schedules s)
          (schedulesReady s) v (connectedCalendars s) (inflight s).

Definition set_connectedCalendars (v : list Calendar.t) (s : State) : State :=
  mkState (activeDate s) (activeDateRange s) (tabActive s) (calendarEvents s) (schedules s)
          (schedulesReady s) (schedulesPreviews s) v (inflight s).

Definition set_inflight (v : list Pending) (s : State) : State :=
  mkState (activeDate s) (activeDateRange s) (tabActive s) (calendarEvents s) (schedules s)
          (schedulesReady s) (schedulesPreviews s) (connectedCalendars s) v.

#[global] Instance Pending_eq_dec : EqDecision Pending.
Proof. solve_decision. Defined.

(** Removes the first occurrence of [p]; [None] when there is none. *)
Fixpoint take_out (p : Pending) (l : list Pending) : option (list Pending) :=
  match l with
  | [] => None
  | q :: l' =>
      if decide (p = q) then Some l'
      else match take_out p l' with
           | Some r => Some (q :: r)
           | None => None
           end
  end.

Section Component.

(** The date library on every input this development does not read
    itself (strings not of the form [YYYY-MM-DD], numbers, ...). *)
Variable dj_other : value -> Dayjs.t.

(** [DEFAULT_SLOT_DURATION] of [@/definitions]. *)
Variable DEFAULT_SLOT_DURATION : Z.

(** [format(DateFormatStrings.QalendarFullDay)], the format string
    being a constant of [@/definitions]. *)
Variable format_QalendarFullDay : Dayjs.t -> string.

(** [dj(v)] at clock reading [now]; [None] is [undefined]. *)
Definition dj (now : Z) (v : option value) : Dayjs.t :=
  match v with
  | None => Some now
  | Some VNull => None
  | Some (VStr s) =>
      match Dayjs.parse_ymd s with
      | Some ms => Some ms
      | None => dj_other (VStr s)
      end
  | Some w => dj_other w
  end.

Definition remote_url (calendar : Calendar.t) (from inclusiveTo : string) : string :=
  "rmt/cal/" +:+ Dayjs.decimal (Calendar.id calendar) +:+ "/" +:+ from +:+ "/" +:+ inclusiveTo.

(** The object stored for a remote event: [{...event, duration: ...}]. *)
Definition with_duration (now : Z) (event : RemoteEvent) : RemoteEvent :=
  <["duration" := VNum (Dayjs.diff_minutes (dj now (event !! "end"))
                                           (dj now (event !! "start")))]> event.

(** [getRemoteEvents(from, to)] up to the first suspension of each of
    its branches: the event list is emptied and one request per
    connected calendar is sent. *)
Definition getRemoteEvents (now : Z) (from to : string) (s : State)
  : State * list Effect :=
  let inclusiveTo := Dayjs.format_ymd (Dayjs.add_days 1 (dj now (Some (VStr to)))) in
  let urls := map (fun calendar => remote_url calendar from inclusiveTo)
                  (connectedCalendars s) in
  (set_inflight (inflight s ++ map PRemote urls) (set_calendarEvents [] s),
   map ECall urls).

(** A branch of [getRemoteEvents] after its request has settled. *)
Definition remoteSettled (now : Z) (r : Reply) (s : State) : option State :=
  match r with
  | RemoteData (Some data) =>
      Some (set_calendarEvents (calendarEvents s ++ map (with_duration now) data) s)
  | RemoteData None => Some s
  | Rejected => Some s
  | _ => None
  end.

Definition firstSchedule (s : State) : option Schedule.t :=
  match schedules s with
  | Some (schedule :: _) => Some schedule
  | _ => None
  end.

(** [getFirstSchedule()] up to its suspension. *)
Definition getFirstSchedule (mounting : bool) (s : State) : State * list Effect :=
  (set_inflight (inflight s ++ [PSchedule mounting]) s, [ECall "schedule/"]).

Definition schedulePreview (schedule : option ScheduleAppointment) (s : State) : State :=
  set_schedulesPreviews (match schedule with Some x => [x] | None => [] end) s.

Definition onDateChange (now : Z) (dateObj : TimeFormatted.t) (s : State)
  : State * list Effect :=
  let start := dj now (Some (VStr (TimeFormatted.start dateObj))) in
  let end_ := dj now (Some (VStr (TimeFormatted.end_ dateObj))) in
  let s1 := set_activeDate
              (Dayjs.add_minutes_div (Dayjs.diff_minutes end_ start) 2 start) s in
  if negb (String.eqb (Dayjs.format_ym (DateRange.end_ (activeDateRange s1)))
                      (Dayjs.format_ym end_))
     || negb (String.eqb (Dayjs.format_ym (DateRange.start (activeDateRange s1)))
                         (Dayjs.format_ym start))
  then getRemoteEvents now (Dayjs.format_ymd start) (Dayjs.format_ymd end_) s1
  else (s1, []).

(** The schedule installed during the first-time-use flow. *)
Definition setup_schedule (now : Z) : Schedule.t :=
  {| Schedule.active := false;
     Schedule.name := "";
     Schedule.calendar_id := 0;
     Schedule.location_type := EventLocationType.InPerson;
     Schedule.location_url := "";
     Schedule.details := "";
     Schedule.start_date := format_QalendarFullDay (dj now None);
     Schedule.end_date := None;
     Schedule.start_time := "09:00";
     Schedule.end_time := "17:00";
     Schedule.earliest_booking := 1440;
     Schedule.farthest_booking := 20160;
     Schedule.weekdays := [1; 2; 3; 4; 5];
     Schedule.slot_duration := DEFAULT_SLOT_DURATION;
     Schedule.meeting_link_provider := MeetingLinkProviderType.None;
     Schedule.booking_confirmation := true;
     Schedule.calendar :=
       {| Calendar.id := 0; Calendar.title := ""; Calendar.color := "#000";
          Calendar.connected := true |} |}.

(** [onMounted], up to its first suspension. *)
Definition onMounted (now : Z) (route_name : option string) (s : State)
  : State * list Effect :=
  if bool_decide (route_name = Some "setup")
  then (set_schedulesReady true (set_schedules (Some [setup_schedule now]) s), [])
  else (set_inflight (inflight s ++ [PRefresh]) s, [ERefresh]).

(** [onMounted] after [refresh()] has settled. *)
Definition mountedAfterRefresh (r : Reply) (s : State) : option (State * list Effect) :=
  match r with
  | RefreshDone => Some (getFirstSchedule true s)
  | Rejected => Some (s, [])
  | _ => None
  end.

(** [getFirstSchedule] after its request has settled, and the rest of
    [onMounted] when it is the caller. *)
Definition scheduleSettled (now : Z) (mounting : bool) (r : Reply) (s : State)
  : option (State * list Effect) :=
  match r with
  | ScheduleData data =>
      let s1 := set_schedules data s in
      if mounting then
        let s2 := set_schedulesReady true s1 in
        let eventsFrom := Dayjs.format_ymd (Dayjs.startOf_month (activeDate s2)) in
        let eventsTo := Dayjs.format_ymd (Dayjs.endOf_month (activeDate s2)) in
        Some (getRemoteEvents now eventsFrom eventsTo s2)
      else Some (s1, [])
  | Rejected => Some (s, [])
  | _ => None
  end.

(** The state the script block sets up. *)
Definition init (now : Z) (route_date : option string) (calendars : list Calendar.t)
  : State :=
  let activeDate0 :=
    match route_date with
    | None | Some EmptyString => dj now None
    | Some date => dj now (Some (VStr date))
    end in
  {| activeDate := activeDate0;
     activeDateRange :=
       {| DateRange.start := Dayjs.startOf_month activeDate0;
          DateRange.end_ := Dayjs.endOf_month activeDate0 |};
     tabActive := BookingCalendarView.Month;
     calendarEvents := [];
     schedules := Some [];
     schedulesReady := false;
     schedulesPreviews := [];
     connectedCalendars := calendars;
     inflight := [] |}.

(** One turn of the event loop at clock reading [now]; [None] when the
    event cannot happen in state [s]. *)
Definition step (now : Z) (ev : Event) (s : State) : option (State * list Effect) :=
  match ev with
  | Mounted route_name => Some (onMounted now route_name s)
  | DateChange dateObj => Some (onDateChange now dateObj s)
  | Created => Some (getFirstSchedule false s)
  | Updated schedule => Some (schedulePreview schedule s, [])
  | CalendarsChanged calendars => Some (set_connectedCalendars calendars s, [])
  | Settle p r =>
      match take_out p (inflight s) with
      | None => None
      | Some rest =>
          let s1 := set_inflight rest s in
          match p with
          | PRefresh => mountedAfterRefresh r s1
          | PSchedule mounting => scheduleSettled now mounting r s1
          | PRemote _ =>
              match remoteSettled now r s1 with
              | Some s2 => Some (s2, [])
              | None => None
              end
          end
      end
  end.

(** A run: the events in order, each with the clock reading at which
    it is handled; the effects are collected in order. *)
Fixpoint run (trace : list (Z * Event)) (s : State) : option (State * list Effect) :=
  match trace with
  | [] => Some (s, [])
  | (now, ev) :: trace' =>
      match step now ev s with
      | None => None
      | Some (s1, effs1) =>
          match run trace' s1 with
          | None => None
          | Some (s2, effs2) => Some (s2, effs1 ++ effs2)
          end
      end
  end.

(** What a settled fetch of remote events adds to the event list. *)
Definition contribution (now : Z) (r : Reply) : list RemoteEvent :=
  match r with
  | RemoteData (Some data) => map (with_duration now) data
  | _ => []
  end.

(** A fetch of remote events that did not deliver an event list. *)
Definition failed (r : Reply) : bool :=
  match r with
  | RemoteData (Some _) => false
  | _ => true
  end.

Definition remote_reply (r : Reply) : bool :=
  match r with
  | RemoteData _ | Rejected => true
  | _ => false
  end.

(** The fetches of remote events settle one by one: for each, the
    clock reading, the request and the reply. *)
Definition settles (order : list (Z * string * Reply)) : list (Z * Event) :=
  map (fun x => (fst (fst x), Settle (PRemote (snd (fst x))) (snd x))) order.

(** The request and the reply of a settled fetch, without the clock
    reading at which it settles. *)
Definition answer (x : Z * string * Reply) : string * Reply := (snd (fst x), snd x).

(** The events a reply delivers. *)
Definition delivered (r : Reply) : list RemoteEvent :=
  match r with
  | RemoteData (Some data) => data
  | _ => []
  end.

(** An event that has a [start] and an [end] member: neither is read
    off the clock. *)
Definition dated (event : RemoteEvent) : Prop :=
  is_Some (event !! "start") /\ is_Some (event !! "end").

(** Reading of "a failed fetch is recorded in a per-calendar mapping"
    on the component: some observation [failures] of the state is
    empty when a query starts and afterwards holds exactly the
    requests that failed. *)
Definition records_failures (failures : State -> list string) : Prop :=
  (forall now from to s, failures (fst (getRemoteEvents now from to s)) = []) /\
  (forall now url r s s',
      step now (Settle (PRemote url) r) s = Some (s', []) ->
      forall u, u ∈ failures s' <-> (u = url /\ failed r = true) \/ u ∈ failures s).

(** Reading of "the first active schedule is consumed": when some
    schedule of the list is active, the consumed one is active. *)
Definition consumes_active : Prop :=
  forall s l a,
    schedules s = Some l -> a ∈ l -> Schedule.active a = true ->
    exists x, firstSchedule s = Some x /\ Schedule.active x = true.

(** Reading of "results of a superseded query never reach the event
    list": after two queries have been started, a reply to a request
    of the first one leaves the event list as it is. *)
Definition discards_superseded : Prop :=
  forall now1 now2 now3 from1 to1 from2 to2 s url r s3,
    let s1 := fst (getRemoteEvents now1 from1 to1 s) in
    let s2 := fst (getRemoteEvents now2 from2 to2 s1) in
    ECall url ∈ snd (getRemoteEvents now1 from1 to1 s) ->
    ECall url ∉ snd (getRemoteEvents now2 from2 to2 s1) ->
    step now3 (Settle (PRemote url) r) s2 = Some (s3, []) ->
    calendarEvents s3 = calendarEvents s2.

(** The events that set [schedulesReady]: the mount on the [setup]
    route, and the arrival of the schedules the mount has asked for. *)
Definition sets_ready (ev : Event) : bool :=
  match ev with
  | Mounted route_name => bool_decide (route_name = Some "setup")
  | Settle (PSchedule true) (ScheduleData _) => true
  | _ => false
  end.

Definition is_updated (ev : Event) : bool :=
  match ev with
  | Updated _ => true
  | _ => false
  end.

Definition is_calendars_changed (ev : Event) : bool :=
  match ev with
  | CalendarsChanged _ => true
  | _ => false
  end.

End Component.

(** ** The availability engine

    The repository holds the view that consumes availability, not the
    engine the specification describes.  The definitions of this module
    follow the specification's sections 3 to 4.6.  Time stamps are
    minutes on the local time line, days are day numbers counted from
    1970-01-01, times of day are minutes after midnight. *)

Module Engine.

(** Modelled from the spec: the units of the engine (the engine is not
    part of the sources); a day has 1440 minutes. *)
Definition minutesPerDay : Z := 1440.

(** Modelled from the spec: the [Interval] of section 3 (the engine is
    not part of the sources), a half-open range [[start, end)]. *)
Record Interval : Type := mkInterval { start : Z; end_ : Z }.

(** Modelled from the spec: the error kinds of section 7 (the engine is
    not part of the sources). *)
Inductive Error : Type :=
| InvalidInterval
| CalendarFetchFailure.

(** Modelled from the spec: construction of an [Interval] (the engine
    is not part of the sources); [start < end] or [InvalidInterval]. *)
Definition make (s e : Z) : Interval + Error :=
  if s <? e then inl (mkInterval s e) else inr InvalidInterval.

(** Modelled from the spec: [overlaps] of section 4.1 (the engine is
    not part of the sources); touching end points do not overlap. *)
Definition overlaps (a b : Interval) : bool :=
  (start a <? end_ b) && (start b <? end_ a).

(** Modelled from the spec: the sorting by start of [merge] (the engine
    is not part of the sources), as a stable insertion sort. *)
Fixpoint insert_by_start (x : Interval) (l : list Interval) : list Interval :=
  match l with
  | [] => [x]
  | y :: l' => if start x <=? start y then x :: y :: l' else y :: insert_by_start x l'
  end.

(** Modelled from the spec: the sorting by start of [merge] (the engine
    is not part of the sources). *)
Fixpoint sort_by_start (l : list Interval) : list Interval :=
  match l with
  | [] => []
  | x :: l' => insert_by_start x (sort_by_start l')
  end.

(** Modelled from the spec: the coalescing of [merge] (the engine is not
    part of the sources): the run that begins with [cur] is extended
    while the next interval starts inside or at the end of it. *)
Fixpoint coalesce_from (cur : Interval) (rest : list Interval) : list Interval :=
  match rest with
  | [] => [cur]
  | x :: rest' =>
      if start x <=? end_ cur
      then coalesce_from (mkInterval (start cur) (Z.max (end_ cur) (end_ x))) rest'
      else cur :: coalesce_from x rest'
  end.

(** Modelled from the spec: the coalescing of [merge] (the engine is not
    part of the sources), over a list sorted by start. *)
Definition coalesce (l : list Interval) : list Interval :=
  match l with
  | [] => []
  | x :: rest => coalesce_from x rest
  end.

(** Modelled from the spec: [merge] of section 4.1 (the engine is not
    part of the sources): sorts by start, then coalesces overlapping
    and adjacent intervals into maximal runs. *)
Definition merge (xs : list Interval) : list Interval :=
  coalesce (sort_by_start xs).

(** Modelled from the spec: the [Schedule] of section 3 as the engine
    consumes it (the engine is not part of the sources). *)
Record Schedule : Type := mkSchedule {
  active : bool;
  start_date : Z;
  end_date : option Z;
  start_time : Z;
  end_time : Z;
  earliest_booking : Z;
  farthest_booking : Z;
  weekdays : list Z;
  slot_duration : Z;
  booking_confirmation : bool;
}.

(** Modelled from the spec: the [Slot] of section 3 (the engine is not
    part of the sources). *)
Record Slot : Type := mkSlot {
  slot_start : Z;
  slot_end : Z;
  slot_schedule : Schedule;
}.

(** Modelled from the spec: a [Slot] as the [Interval] it occupies (the
    engine is not part of the sources). *)
Definition slot_interval (x : Slot) : Interval :=
  mkInterval (slot_start x) (slot_end x).

(** Modelled from the spec: the lower bound of the window of section
    4.4 (the engine is not part of the sources): [now + earliest_booking]
    clipped to [start_date]. *)
Definition window_start (schedule : Schedule) (now : Z) : Z :=
  Z.max (now + earliest_booking schedule) (start_date schedule).

(** Modelled from the spec: the upper bound of the window of section
    4.4 (the engine is not part of the sources): [now + farthest_booking]
    clipped to [end_date], when there is one. *)
Definition window_end (schedule : Schedule) (now : Z) : Z :=
  match end_date schedule with
  | Some e => Z.min (now + farthest_booking schedule) e
  | None => now + farthest_booking schedule
  end.

(** Modelled from the spec: [BookingWindowPolicy.allowedRange] of
    section 4.4 (the engine is not part of the sources). *)
Definition allowedRange (schedule : Schedule) (now : Z) : Interval :=
  let lo := window_start schedule now in
  let hi := window_end schedule now in
  if lo <? hi then mkInterval lo hi else mkInterval lo lo.

(** Modelled from the spec: the weekday of a calendar day, in the
    numbering [1..7] of [weekdays] (the engine is not part of the
    sources): the ISO weekday, 1 = Monday .. 7 = Sunday; day 0 is a
    Thursday. *)
Definition weekday (d : Z) : Z := (d + 3) mod 7 + 1.

(** Modelled from the spec: the emission loop of section 4.5 (the
    engine is not part of the sources): consecutive slots of length
    [dur] from [t] on, as long as the next one ends at or before
    [stop]. *)
Fixpoint emit (fuel : nat) (dur stop t : Z) : list (Z * Z) :=
  match fuel with
  | O => []
  | S fuel' =>
      if t + dur <=? stop then (t, t + dur) :: emit fuel' dur stop (t + dur) else []
  end.

(** Modelled from the spec: the slots of one day of section 4.5 (the
    engine is not part of the sources), in minutes after midnight; a
    slot of positive length cannot be emitted more often than the daily
    window has minutes. *)
Definition daily_grid (schedule : Schedule) : list (Z * Z) :=
  if 0 <? slot_duration schedule
  then emit (Z.to_nat (end_time schedule - start_time schedule))
            (slot_duration schedule) (end_time schedule) (start_time schedule)
  else [].

(** Modelled from the spec: the slots of day [d] of section 4.5 (the
    engine is not part of the sources): none unless the weekday of [d]
    is one of the schedule's. *)
Definition slots_of_day (schedule : Schedule) (d : Z) : list Slot :=
  if bool_decide (weekday d ∈ weekdays schedule)
  then map (fun p => mkSlot (d * minutesPerDay + fst p) (d * minutesPerDay + snd p) schedule)
           (daily_grid schedule)
  else [].

(** Modelled from the spec: [SlotGenerator.generate] of section 4.5
    (the engine is not part of the sources), over the days
    [[from, to)]. *)
Definition generate (schedule : Schedule) (from to : Z) : list Slot :=
  flat_map (slots_of_day schedule) (seqZ from (to - from)).

(** Modelled from the spec: the [Appointment] of section 3 (the engine
    is not part of the sources). *)
Record Appointment : Type := mkAppointment {
  appt_start : Z;
  appt_end : Z;
  cancelled : bool;
}.

(** Modelled from the spec: [AppointmentConflictSet.fromAppointments]
    of section 4.3 (the engine is not part of the sources). *)
Definition fromAppointments (appointments : list Appointment) : list Interval :=
  merge (map (fun a => mkInterval (appt_start a) (appt_end a))
             (filter (fun a => cancelled a = false) appointments)).

(** Modelled from the spec: "sorted" of section 8 (the engine is not
    part of the sources). *)
Definition sorted_by_start (l : list Interval) : Prop :=
  forall (i j : nat) (a b : Interval),
    (i < j)%nat -> l !! i = Some a -> l !! j = Some b -> start a <= start b.

(** Modelled from the spec: "pairwise non-overlapping" of section 8
    (the engine is not part of the sources). *)
Definition pairwise_disjoint (l : list Interval) : Prop :=
  forall (i j : nat) (a b : Interval),
    i <> j -> l !! i = Some a -> l !! j = Some b -> overlaps a b = false.

(** An interval ends before the next one starts, which starts no
    earlier: the shape of a merged sequence. *)
Definition apart (a b : Interval) : Prop := start a <= start b /\ end_ a < start b.

(** The order [merge] sorts by. *)
Definition le_start (a b : Interval) : Prop := start a <= start b.

(** Modelled from the spec: [intersect] of section 4.6 (the engine is
    not part of the sources). *)
Definition intersect (a b : Interval) : Interval :=
  mkInterval (Z.max (start a) (start b)) (Z.min (end_ a) (end_ b)).

(** Modelled from the spec: an empty or inverted range (the engine is
    not part of the sources). *)
Definition is_empty (a : Interval) : bool := end_ a <=? start a.

Section Compute.

(** The calendar client of section 6: the busy intervals of a calendar
    over a range, or a failure. *)
Variable getEvents : Z -> Interval -> option (list Interval).

(** Modelled from the spec: [RemoteCalendarAggregator.fetch] of
    section 4.2 (the engine is not part of the sources); the upper
    bound handed to the client is moved on by one day. *)
Definition fetch (calendarIds : list Z) (range : Interval)
  : list Interval * list (Z * Error) :=
  let asked := mkInterval (start range) (end_ range + minutesPerDay) in
  (merge (flat_map (fun c => match getEvents c asked with
                             | Some l => l
                             | None => []
                             end) calendarIds),
   flat_map (fun c => match getEvents c asked with
                      | Some _ => []
                      | None => [(c, CalendarFetchFailure)]
                      end) calendarIds).

(** Modelled from the spec: the clipping of the grid of section 2 (the
    engine is not part of the sources): the slot lies in the range. *)
Definition inside (range : Interval) (x : Slot) : bool :=
  (start range <=? slot_start x) && (slot_end x <=? end_ range).

(** Modelled from the spec: step 6 of section 4.6 (the engine is not
    part of the sources): the slot meets no busy interval. *)
Definition free (busy : list Interval) (x : Slot) : bool :=
  forallb (fun b => negb (overlaps (slot_interval x) b)) busy.

(** Modelled from the spec: [AvailabilityComputer.compute] of
    section 4.6 (the engine is not part of the sources); the grid is
    generated over the days the effective range touches and clipped
    to that range. *)
Definition compute (schedule : Schedule) (connectedCalendarIds : list Z)
    (pendingAppointments : list Appointment) (queryRange : Interval) (now : Z)
  : list Slot * list (Z * Error) :=
  if negb (active schedule) then ([], [])
  else
    let window := allowedRange schedule now in
    let effectiveRange := intersect queryRange window in
    if is_empty effectiveRange then ([], [])
    else
      let (busyRemote, failures) := fetch connectedCalendarIds effectiveRange in
      let busyLocal :=
        fromAppointments
          (filter (fun a => overlaps (mkInterval (appt_start a) (appt_end a))
                                     effectiveRange = true)
                  pendingAppointments) in
      let busy := merge (busyRemote ++ busyLocal) in
      let candidates :=
        generate schedule (start effectiveRange / minutesPerDay)
                 ((end_ effectiveRange - 1) / minutesPerDay + 1) in
      (filter (fun x => inside effectiveRange x && free busy x = true) candidates,
       failures).

End Compute.

End Engine.

(** ** Sample data *)

Module Sample.

Definition dj_other : value -> Dayjs.t := fun _ => None.
Definition DEFAULT_SLOT_DURATION : Z := 30.
Definition format_QalendarFullDay : Dayjs.t -> string := Dayjs.format_ymd.

Definition work : Calendar.t := Calendar.Build 1 "Work" "#f00" true.
Definition home : Calendar.t := Calendar.Build 2 "Home" "#0f0" true.

(** 2024-01-15, noon. *)
Definition noon : Z := 19737 * Dayjs.msPerDay + 12 * 60 * Dayjs.msPerMinute.

(** The component on the dashboard route, two calendars connected. *)
Definition s0 : State := init dj_other noon None [work; home].

Definition inactive : Schedule.t :=
  setup_schedule dj_other DEFAULT_SLOT_DURATION format_QalendarFullDay noon.

Definition active : Schedule.t :=
  Schedule.Build true "Office hours" 1 EventLocationType.InPerson "" "" "2024-01-15" None
                 "10:00" "12:00" 60 1440 [2; 4] 30 MeetingLinkProviderType.None false work.

Definition february : TimeFormatted.t := TimeFormatted.Build "2024-02-01" "2024-02-29".

Definition meeting : RemoteEvent :=
  <["title" := VStr "Review"]> (<["start" := VStr "2024-02-05"]>
    (<["end" := VStr "2024-02-06"]> ∅)).

Definition february_work : string := "rmt/cal/1/2024-02-01/2024-03-01".

Definition february_home : string := "rmt/cal/2/2024-02-01/2024-03-01".

(** The user opens the dashboard, the stores and the schedules load,
    the user moves to February and its events arrive for one calendar. *)
Definition browsing : list (Z * Event) :=
  [(noon, Mounted (Some "dashboard"));
   (noon + 120, Settle PRefresh RefreshDone);
   (noon + 250, Settle (PSchedule true) (ScheduleData (Some [active])));
   (noon + 9000, DateChange february);
   (noon + 9400, Settle (PRemote february_work) (RemoteData (Some [meeting])))].

Definition after_browsing : State * list Effect :=
  default (s0, [])
          (run dj_other DEFAULT_SLOT_DURATION format_QalendarFullDay browsing s0).

(** The replies to the February query: the second calendar fails
    first, then the first calendar delivers. *)
Definition february_replies : list (Z * string * Reply) :=
  [(noon + 9300, february_home, Rejected);
   (noon + 9400, february_work, RemoteData (Some [meeting]))].

(** The same replies the other way round, at the same clock readings:
    the first calendar delivers first, then the second calendar fails. *)
Definition february_replies_swapped : list (Z * string * Reply) :=
  [(noon + 9300, february_work, RemoteData (Some [meeting]));
   (noon + 9400, february_home, Rejected)].

(** A date of the year 99 in the route: the day before 0100-01-01. *)
Definition year_99 : option string := Some "0100-01-00".

(** An event without an end. *)
Definition open_ended : RemoteEvent := <["start" := VStr "2024-02-05"]> ∅.

(** Monday to Friday, 09:00 to 17:00, slots of an hour, bookable from
    a day to two weeks ahead. *)
Definition office : Engine.Schedule :=
  Engine.mkSchedule true 0 None 540 1020 1440 20160 [1; 2; 3; 4; 5] 60 true.

(** 2024-01-01 is day 19723, a Monday; its noon in minutes. *)
Definition new_year : Z := 19723.
Definition new_year_noon : Z := 19723 * 1440 + 720.

Definition busy : list Engine.Interval :=
  [Engine.mkInterval 50 70; Engine.mkInterval 10 30; Engine.mkInterval 30 40;
   Engine.mkInterval 60 90].

Definition february_first : Dayjs.civil := Dayjs.Civil 2024 2 1.
Definition leap_day : Dayjs.civil := Dayjs.Civil 2024 2 29.

Definition preview : ScheduleAppointment := <["title" := VStr "Office hours"]> ∅.

(** The user edits the schedule, then moves to February and saves. *)
Definition previewing : list (Z * Event) :=
  [(noon, Updated (Some preview)); (noon + 10, DateChange february); (noon + 20, Created)].

Definition after_previewing : State * list Effect :=
  default (s0, [])
          (run dj_other DEFAULT_SLOT_DURATION format_QalendarFullDay previewing s0).

(** The dashboard with no calendar connected. *)
Definition offline : list (Z * Event) :=
  [(noon, Mounted (Some "dashboard"));
   (noon + 120, Settle PRefresh RefreshDone);
   (noon + 250, Settle (PSchedule true) (ScheduleData (Some [active])));
   (noon + 9000, DateChange february)].

Definition after_offline : State * list Effect :=
  default (s0, [])
          (run dj_other DEFAULT_SLOT_DURATION format_QalendarFullDay offline
               (init dj_other noon None [])).

Definition unreadable : TimeFormatted.t := TimeFormatted.Build "soon" "later".

(** The dashboard with one calendar connected. *)
Definition s_work : State := init dj_other noon None [work].

End Sample.


(** * Properties *)

(** ** The civil calendar *)

Module DayjsFacts.
Import Dayjs.

Ltac first_if :=
  match goal with
  | |- context [if ?a <? ?b then _ else _] => destruct (Z.ltb_spec a b)
  end.

Ltac month_cases m :=
  let C := fresh "C" in
  assert (m = 1 \/ m = 2 \/ m = 3 \/ m = 4 \/ m = 5 \/ m = 6 \/ m = 7 \/
          m = 8 \/ m = 9 \/ m = 10 \/ m = 11 \/ m = 12) as C by lia;
  repeat (destruct C as [C | C]; [subst m |]); [.. | subst m].

Ltac is_lit m :=
  lazymatch m with
  | Z0 => idtac
  | Zpos ?p => lazymatch p with context [if _ then _ else _] => fail | _ => idtac end
  end.

Ltac is_lit_bool l :=
  lazymatch l with
  | true => idtac
  | false => idtac
  end.

Ltac eval_tables :=
  repeat match goal with
    | |- context [days_before_month ?l ?m] =>
        is_lit m; is_lit_bool l;
        let v := eval vm_compute in (days_before_month l m) in
        progress change (days_before_month l m) with v
    | |- context [month_length ?l ?m] =>
        is_lit m; is_lit_bool l;
        let v := eval vm_compute in (month_length l m) in
        progress change (month_length l m) with v
    end.

Ltac month_in_range :=
  match goal with
  | |- context [(?m - 1) / 12] =>
      replace ((m - 1) / 12) with 0 by (Z.div_mod_to_equations; lia);
      replace ((m - 1) mod 12 + 1) with m by (Z.div_mod_to_equations; lia);
      rewrite Z.add_0_r
  end.

Lemma year_from_day_bounds (d : Z) :
  day_from_year (year_from_day d) <= d < day_from_year (year_from_day d + 1).
Proof.
  unfold year_from_day, day_from_year.
  repeat match goal with
    | |- context [if ?b then _ else _] => let E := fresh "E" in destruct b eqn:E
    end;
  Z.div_mod_to_equations; lia.
Qed.

Lemma day_from_year_step (y : Z) :
  day_from_year (y + 1) = day_from_year y + days_in_year y.
Proof.
  unfold day_from_year, days_in_year, is_leap.
  repeat match goal with
    | |- context [?a =? ?b] => destruct (Z.eqb_spec a b)
    end; cbn [andb orb negb];
  Z.div_mod_to_equations; lia.
Qed.

Lemma day_from_year_mono (a b : Z) :
  a <= b -> day_from_year a + 365 * (b - a) <= day_from_year b.
Proof. unfold day_from_year. intros. Z.div_mod_to_equations. lia. Qed.

(** The year of a day is the only year whose days include it. *)
Lemma year_from_day_unique (d y : Z) :
  day_from_year y <= d < day_from_year (y + 1) -> year_from_day d = y.
Proof.
  intros H. pose proof (year_from_day_bounds d) as B.
  set (y' := year_from_day d) in *. clearbody y'.
  destruct (Z.lt_trichotomy y' y) as [L | [E | G]]; auto.
  - pose proof (day_from_year_mono (y' + 1) y ltac:(lia)). lia.
  - pose proof (day_from_year_mono (y + 1) y' ltac:(lia)). lia.
Qed.

Lemma days_before_month_next (leap : bool) (m : Z) :
  1 <= m <= 11 ->
  days_before_month leap (m + 1) = days_before_month leap m + month_length leap m.
Proof. intros Hm. month_cases m; try lia; destruct leap; reflexivity. Qed.

Lemma days_before_month_bound (leap : bool) (m : Z) :
  1 <= m <= 12 ->
  0 <= days_before_month leap m /\
  days_before_month leap m + month_length leap m <= (if leap then 366 else 365).
Proof. intros Hm. month_cases m; destruct leap; vm_compute; split; congruence. Qed.

Lemma month_length_bounds (leap : bool) (m : Z) : 28 <= month_length leap m <= 31.
Proof.
  unfold month_length.
  destruct leap; repeat match goal with
    | |- context [?a =? ?b] => destruct (Z.eqb_spec a b)
    end; cbn; lia.
Qed.

Lemma month_from_doy_unique (leap : bool) (doy m : Z) :
  1 <= m <= 12 ->
  days_before_month leap m <= doy < days_before_month leap m + month_length leap m ->
  month_from_doy leap doy = m.
Proof.
  intros Hm. unfold month_from_doy.
  month_cases m; destruct leap; eval_tables; intros H;
    repeat (first_if; [lia |]); lia.
Qed.

Lemma month_from_doy_spec (leap : bool) (doy : Z) :
  0 <= doy < (if leap then 366 else 365) ->
  1 <= month_from_doy leap doy <= 12 /\
  days_before_month leap (month_from_doy leap doy) <= doy
    < days_before_month leap (month_from_doy leap doy)
      + month_length leap (month_from_doy leap doy).
Proof.
  intros H. unfold month_from_doy.
  destruct leap; eval_tables;
    repeat (first_if; [eval_tables; lia |]); eval_tables; lia.
Qed.

(** A valid civil date is read back from its day number. *)
Lemma civil_of_day_of_civil (y m d : Z) :
  1 <= m <= 12 -> 1 <= d <= days_in_month y m ->
  civil_of_day (day_of_civil y m d) = Civil y m d.
Proof.
  intros Hm Hd. unfold day_of_civil, civil_of_day, days_in_month in *.
  month_in_range.
  pose proof (days_before_month_bound (is_leap y) m Hm) as B.
  assert (year_from_day (day_from_year y + days_before_month (is_leap y) m + (d - 1)) = y)
    as ->.
  { apply year_from_day_unique. rewrite day_from_year_step. unfold days_in_year.
    destruct (is_leap y); lia. }
  replace (day_from_year y + days_before_month (is_leap y) m + (d - 1) - day_from_year y)
    with (days_before_month (is_leap y) m + (d - 1)) by lia.
  rewrite (month_from_doy_unique _ _ m) by lia.
  f_equal. lia.
Qed.

(** Every day number is the day number of a valid civil date. *)
Lemma day_of_civil_of_day (n : Z) :
  valid_civil (civil_of_day n) /\
  day_of_civil (year (civil_of_day n)) (month (civil_of_day n)) (day (civil_of_day n)) = n.
Proof.
  unfold valid_civil, civil_of_day, days_in_month. cbn [year month day].
  pose proof (year_from_day_bounds n) as B.
  set (y := year_from_day n) in *. rewrite day_from_year_step in B.
  assert (0 <= n - day_from_year y < (if is_leap y then 366 else 365)) as D.
  { unfold days_in_year in B. destruct (is_leap y); lia. }
  pose proof (month_from_doy_spec (is_leap y) (n - day_from_year y) D) as M.
  set (m := month_from_doy _ _) in *.
  split; [lia |]. unfold day_of_civil. month_in_range. lia.
Qed.

Lemma day_of_civil_next_month (y m : Z) :
  1 <= m <= 12 ->
  day_of_civil y (m + 1) 1 = day_of_civil y m (days_in_month y m) + 1.
Proof.
  intros Hm. destruct (Z.eq_dec m 12) as [-> | Hne].
  - change (day_of_civil y (12 + 1) 1) with (day_from_year (y + 1) + 0 + (1 - 1)).
    change (day_of_civil y 12 (days_in_month y 12))
      with (day_from_year (y + 0) + days_before_month (is_leap (y + 0)) 12
            + (month_length (is_leap (y + 0)) 12 - 1)).
    rewrite !Z.add_0_r, day_from_year_step. unfold days_in_year.
    destruct (is_leap y); eval_tables; lia.
  - unfold day_of_civil, days_in_month.
    replace (m + 1 - 1) with ((m + 1) - 1) by lia.
    replace ((m + 1 - 1) / 12) with 0 by (Z.div_mod_to_equations; lia).
    replace ((m + 1 - 1) mod 12 + 1) with (m + 1) by (Z.div_mod_to_equations; lia).
    month_in_range. rewrite Z.add_0_r, days_before_month_next by lia. lia.
Qed.

(** One day later on the time line is the next day of the calendar. *)
Lemma civil_of_day_succ (c : civil) :
  valid_civil c ->
  civil_of_day (day_of_civil (year c) (month c) (day c) + 1) = next_day c.
Proof.
  destruct c as [y m d]. unfold valid_civil, next_day. cbn [year month day].
  intros [Hm Hd].
  pose proof (month_length_bounds (is_leap y) m) as L. fold (days_in_month y m) in L.
  destruct (Z.ltb_spec d (days_in_month y m)) as [Hlt | Hge].
  - replace (day_of_civil y m d + 1) with (day_of_civil y m (d + 1))
      by (unfold day_of_civil; lia).
    apply civil_of_day_of_civil; lia.
  - assert (d = days_in_month y m) as -> by lia.
    rewrite <- day_of_civil_next_month by lia.
    destruct (Z.ltb_spec m 12) as [Hm12 | Hm12].
    + apply civil_of_day_of_civil; [lia |].
      pose proof (month_length_bounds (is_leap y) (m + 1)).
      unfold days_in_month. lia.
    + assert (m = 12) as -> by lia.
      replace (day_of_civil y (12 + 1) 1) with (day_of_civil (y + 1) 1 1).
      2:{ unfold day_of_civil. change ((12 + 1 - 1) / 12) with 1.
          change ((1 - 1) / 12) with 0. rewrite (Z.add_0_r (y + 1)). reflexivity. }
      apply civil_of_day_of_civil; [lia |].
      pose proof (month_length_bounds (is_leap (y + 1)) 1).
      unfold days_in_month. lia.
Qed.

Lemma host_year_kept (y : Z) : ~ (0 <= y <= 99) -> host_year y = y.
Proof.
  intros H. unfold host_year.
  destruct (Z.leb_spec 0 y), (Z.ltb_spec y 100); cbn [andb]; lia.
Qed.

Lemma host_year_century (y : Z) : 0 <= y <= 99 -> host_year y = 1900 + y.
Proof.
  intros H. unfold host_year.
  destruct (Z.leb_spec 0 y), (Z.ltb_spec y 100); cbn [andb]; lia.
Qed.

Lemma digit_val_digit (n : Z) : digit_val (digit n) = Some (n mod 10).
Proof.
  unfold digit. pose proof (Z.mod_pos_bound n 10 ltac:(lia)) as B.
  set (k := n mod 10) in *. clearbody k.
  assert (k = 0 \/ k = 1 \/ k = 2 \/ k = 3 \/ k = 4 \/ k = 5 \/ k = 6 \/
          k = 7 \/ k = 8 \/ k = 9) as C by lia.
  repeat (destruct C as [C | C]; [subst k; reflexivity |]). subst k; reflexivity.
Qed.

(** A formatted date of a year of three or four digits is parsed to
    the midnight that begins it. *)
Lemma parse_ymd_ymd (c : civil) :
  100 <= year c <= 9999 -> 0 <= month c <= 99 -> 0 <= day c <= 99 ->
  parse_ymd (ymd c) = Some (day_of_civil (year c) (month c) (day c) * msPerDay).
Proof.
  destruct c as [y m d]. cbn [year month day]. intros Hy Hm Hd.
  unfold ymd, pad4, pad2. cbn [year month day].
  destruct (Z.leb_spec 0 y); [| lia]. destruct (Z.ltb_spec y 10000); [| lia].
  cbn [andb]. cbv [String.append parse_ymd]. rewrite !digit_val_digit.
  change (is_dash "-" && is_dash "-") with true. cbv iota.
  replace (1000 * ((y / 1000) mod 10) + 100 * ((y / 100) mod 10)
           + 10 * ((y / 10) mod 10) + y mod 10) with y
    by (Z.div_mod_to_equations; lia).
  rewrite host_year_kept by lia.
  do 2 f_equal. f_equal; Z.div_mod_to_equations; lia.
Qed.

Lemma civil_of_ms_midnight (n : Z) : civil_of_ms (n * msPerDay) = civil_of_day n.
Proof. unfold civil_of_ms, msPerDay. f_equal. Z.div_mod_to_equations. lia. Qed.

Lemma civil_of_ms_add_day (n : Z) :
  civil_of_ms (n * msPerDay + 1 * msPerDay) = civil_of_day (n + 1).
Proof. unfold civil_of_ms, msPerDay. f_equal. Z.div_mod_to_equations. lia. Qed.

Lemma valid_civil_of_ms (ms : Z) : valid_civil (civil_of_ms ms).
Proof. apply day_of_civil_of_day. Qed.

(** The first midnight and the last millisecond of a month. *)
Lemma civil_first_of_month (y m : Z) :
  1 <= m <= 12 -> civil_of_ms (day_of_civil y m 1 * msPerDay) = Civil y m 1.
Proof.
  intros Hm. rewrite civil_of_ms_midnight.
  pose proof (month_length_bounds (is_leap y) m) as L.
  apply civil_of_day_of_civil; [exact Hm | unfold days_in_month; lia].
Qed.

Lemma civil_last_of_month (y m : Z) :
  1 <= m <= 12 ->
  civil_of_ms (day_of_civil y (m + 1) 1 * msPerDay - 1) = Civil y m (days_in_month y m).
Proof.
  intros Hm. unfold civil_of_ms.
  rewrite day_of_civil_next_month by exact Hm.
  match goal with
  | |- context [((?n + 1) * msPerDay - 1) / msPerDay] =>
      replace (((n + 1) * msPerDay - 1) / msPerDay) with n
        by (unfold msPerDay; Z.div_mod_to_equations; lia)
  end.
  pose proof (month_length_bounds (is_leap y) m) as L.
  apply civil_of_day_of_civil; [exact Hm | unfold days_in_month; lia].
Qed.

(** The first and the last instant of the month of a date lie in the
    month of the year the host's date constructor makes of its year. *)
Lemma civil_startOf_month_host (ms : Z) :
  startOf_month (Some ms)
  = Some (day_of_civil (host_year (year (civil_of_ms ms))) (month (civil_of_ms ms)) 1
          * msPerDay) /\
  civil_of_ms (day_of_civil (host_year (year (civil_of_ms ms))) (month (civil_of_ms ms)) 1
               * msPerDay)
  = Civil (host_year (year (civil_of_ms ms))) (month (civil_of_ms ms)) 1.
Proof.
  split; [reflexivity |]. apply civil_first_of_month, (proj1 (valid_civil_of_ms ms)).
Qed.

Lemma civil_endOf_month_host (ms : Z) :
  endOf_month (Some ms)
  = Some (day_of_civil (host_year (year (civil_of_ms ms))) (month (civil_of_ms ms) + 1) 1
          * msPerDay - 1) /\
  civil_of_ms (day_of_civil (host_year (year (civil_of_ms ms)))
                            (month (civil_of_ms ms) + 1) 1 * msPerDay - 1)
  = Civil (host_year (year (civil_of_ms ms))) (month (civil_of_ms ms))
          (days_in_month (host_year (year (civil_of_ms ms))) (month (civil_of_ms ms))).
Proof.
  split; [reflexivity |]. apply civil_last_of_month, (proj1 (valid_civil_of_ms ms)).
Qed.

(** For a date whose year the host keeps, they lie in the month of the
    date. *)
Lemma format_ym_startOf_month (x : t) :
  year_kept x -> format_ym (startOf_month x) = format_ym x.
Proof.
  destruct x as [ms |]; [| reflexivity]. cbn [year_kept]. intros Hy.
  destruct (civil_startOf_month_host ms) as [-> Hc]. cbn [format_ym].
  rewrite Hc, host_year_kept by exact Hy. reflexivity.
Qed.

Lemma format_ym_endOf_month (x : t) :
  year_kept x -> format_ym (endOf_month x) = format_ym x.
Proof.
  destruct x as [ms |]; [| reflexivity]. cbn [year_kept]. intros Hy.
  destruct (civil_endOf_month_host ms) as [-> Hc]. cbn [format_ym].
  rewrite Hc, host_year_kept by exact Hy. reflexivity.
Qed.

(** Both ends of the month of a date lie in one month. *)
Lemma format_ym_month_ends (x : t) :
  format_ym (startOf_month x) = format_ym (endOf_month x).
Proof.
  destruct x as [ms |]; [| reflexivity].
  destruct (civil_startOf_month_host ms) as [-> Hs].
  destruct (civil_endOf_month_host ms) as [-> He]. cbn [format_ym].
  rewrite Hs, He. reflexivity.
Qed.

(** The month of a day: its first day, the day itself, and the first
    day of the next month. *)
Lemma month_of_day (n : Z) :
  day_of_civil (year (civil_of_day n)) (month (civil_of_day n)) 1 <= n
  < day_of_civil (year (civil_of_day n)) (month (civil_of_day n) + 1) 1.
Proof.
  destruct (day_of_civil_of_day n) as [[Hm Hd] Heq].
  rewrite day_of_civil_next_month by exact Hm.
  pose proof (month_length_bounds
                (is_leap (year (civil_of_day n))) (month (civil_of_day n))) as L.
  unfold days_in_month in *. unfold day_of_civil in *. lia.
Qed.

(** A formatted date is read back as the midnight of the date it was
    formatted from. *)
Lemma parse_ymd_civil (c : civil) :
  valid_civil c -> 100 <= year c <= 9999 ->
  exists ms, parse_ymd (ymd c) = Some ms /\ civil_of_ms ms = c.
Proof.
  intros [Hm Hd] Hy.
  pose proof (month_length_bounds (is_leap (year c)) (month c)) as L.
  unfold days_in_month in Hd.
  eexists. split; [apply parse_ymd_ymd; lia |].
  rewrite civil_of_ms_midnight.
  destruct c as [y m d]. apply civil_of_day_of_civil; assumption.
Qed.

(** The request bound for a [to] that is a formatted date. *)
Lemma add_day_ymd (ms : Z) :
  civil_of_ms (ms + 1 * msPerDay) = next_day (civil_of_ms ms).
Proof.
  unfold civil_of_ms.
  replace ((ms + 1 * msPerDay) / msPerDay) with (ms / msPerDay + 1)
    by (unfold msPerDay; Z.div_mod_to_equations; lia).
  destruct (day_of_civil_of_day (ms / msPerDay)) as [Hv Heq].
  rewrite <- Heq at 1. apply civil_of_day_succ, Hv.
Qed.

(** The day after the last day of a month is the first of a month. *)
Lemma day_of_next_month (y m : Z) :
  1 <= m <= 12 -> day (civil_of_day (day_of_civil y (m + 1) 1)) = 1.
Proof.
  intros Hm. rewrite day_of_civil_next_month by exact Hm.
  pose proof (month_length_bounds (is_leap y) m) as L.
  pose proof (civil_of_day_succ (Civil y m (days_in_month y m))) as Hsucc.
  cbn [year month day] in Hsucc. rewrite Hsucc.
  - unfold next_day. cbn [year month day].
    rewrite Z.ltb_irrefl. destruct (m <? 12); reflexivity.
  - split; cbn [year month day]; [exact Hm | unfold days_in_month; lia].
Qed.

(** A month runs from its first day to the day before the first day of
    the next month. *)
Lemma month_span (y m : Z) :
  1 <= m <= 12 -> day_of_civil y m 1 < day_of_civil y (m + 1) 1.
Proof.
  intros Hm. rewrite day_of_civil_next_month by exact Hm.
  pose proof (month_length_bounds (is_leap y) m) as L.
  unfold days_in_month, day_of_civil. lia.
Qed.

(** A month of a year from 0 to 99 is over before the same month begins
    1900 years later. *)
Lemma century_later (y m : Z) :
  0 <= y <= 99 -> 1 <= m <= 12 ->
  day_of_civil y (m + 1) 1 <= day_of_civil (1900 + y) m 1.
Proof.
  intros Hy Hm. rewrite day_of_civil_next_month by exact Hm.
  pose proof (days_before_month_bound (is_leap y) m Hm) as [B1 B1'].
  pose proof (days_before_month_bound (is_leap (1900 + y)) m Hm) as [B2 _].
  pose proof (day_from_year_mono y (1900 + y) ltac:(lia)) as Hmono.
  unfold days_in_month, day_of_civil. month_in_range. rewrite ?Z.add_0_r.
  destruct (is_leap y); lia.
Qed.

End DayjsFacts.

(** ** The component *)

Section ComponentFacts.

Variable dj_other : value -> Dayjs.t.
Variable DEFAULT_SLOT_DURATION : Z.
Variable format_QalendarFullDay : Dayjs.t -> string.

(** The handlers are unfolded by name through these tactics; below,
    their names stand for the handlers at the parameters of the section. *)
Ltac unfold_step := unfold step.
Ltac pair_inv s' :=
  let H := fresh "H" in
  intros H; apply (f_equal (option_map fst)) in H; cbn [option_map fst] in H;
  injection H as H; subst s'.
Ltac snd_inv effs :=
  let H := fresh "H" in
  intros H; apply (f_equal (option_map snd)) in H; cbn [option_map snd] in H;
  injection H as H; subst effs.
Ltac unfold_onMounted := unfold onMounted.
Ltac unfold_handlers :=
  unfold onMounted, onDateChange, getFirstSchedule, schedulePreview, mountedAfterRefresh,
    scheduleSettled, remoteSettled, getRemoteEvents; cbn.
Ltac unfold_getRemoteEvents := unfold getRemoteEvents.
Ltac unfold_getRemoteEvents_in H := unfold getRemoteEvents in H.
Ltac unfold_onDateChange := unfold onDateChange.
Ltac unfold_init := unfold init.
Ltac unfold_init_in H := unfold init in H.
Ltac unfold_with_duration := unfold with_duration.
Ltac simpl_run := cbn [settles map fst snd run].

Local Abbreviation dj := (dj dj_other).
Local Abbreviation getRemoteEvents := (getRemoteEvents dj_other).
Local Abbreviation with_duration := (with_duration dj_other).
Local Abbreviation onDateChange := (onDateChange dj_other).
Local Abbreviation onMounted := (onMounted dj_other DEFAULT_SLOT_DURATION format_QalendarFullDay).
Local Abbreviation setup_schedule :=
  (setup_schedule dj_other DEFAULT_SLOT_DURATION format_QalendarFullDay).
Local Abbreviation step := (step dj_other DEFAULT_SLOT_DURATION format_QalendarFullDay).
Local Abbreviation run := (run dj_other DEFAULT_SLOT_DURATION format_QalendarFullDay).
Local Abbreviation init := (init dj_other).

(** The upper bound of the requests, for every [to]. *)
Lemma getRemoteEvents_requests (now : Z) (from to : string) (s : State) :
  snd (getRemoteEvents now from to s)
  = map (fun calendar =>
           ECall (remote_url calendar from
                    (Dayjs.format_ymd (Dayjs.add_days 1 (dj now (Some (VStr to)))))))
        (connectedCalendars s).
Proof. unfold getRemoteEvents. cbn [snd]. rewrite map_map. reflexivity. Qed.

Lemma dj_ymd (now : Z) (c : Dayjs.civil) :
  Dayjs.valid_civil c -> 100 <= Dayjs.year c <= 9999 ->
  dj now (Some (VStr (Dayjs.ymd c)))
  = Some (Dayjs.day_of_civil (Dayjs.year c) (Dayjs.month c) (Dayjs.day c) * Dayjs.msPerDay).
Proof.
  intros [Hm Hd] Hy. unfold dj.
  pose proof (DayjsFacts.month_length_bounds (Dayjs.is_leap (Dayjs.year c)) (Dayjs.month c)).
  unfold Dayjs.days_in_month in Hd.
  rewrite DayjsFacts.parse_ymd_ymd by lia. reflexivity.
Qed.

(** C1: for a query whose [to] is the date [c] (a valid date of a year
    of three or four digits, written [YYYY-MM-DD]), [getRemoteEvents]
    sends exactly one request per connected calendar, and the upper
    bound in each of them is the day after [c]. *)
Theorem getRemoteEvents_upper_bound (now : Z) (from : string) (c : Dayjs.civil) (s : State) :
  Dayjs.valid_civil c -> 100 <= Dayjs.year c <= 9999 ->
  snd (getRemoteEvents now from (Dayjs.ymd c) s)
  = map (fun calendar =>
           ECall ("rmt/cal/" +:+ Dayjs.decimal (Calendar.id calendar) +:+ "/" +:+ from
                  +:+ "/" +:+ Dayjs.ymd (Dayjs.next_day c)))
        (connectedCalendars s).
Proof.
  intros Hc Hy. rewrite getRemoteEvents_requests, dj_ymd by assumption.
  unfold Dayjs.add_days, Dayjs.format_ymd.
  rewrite DayjsFacts.civil_of_ms_add_day, DayjsFacts.civil_of_day_succ by assumption.
  reflexivity.
Qed.

(** C4 (as amended): the schedule consumed is the one at index 0 of
    the list the accessor returned, whatever its [active] flag, and
    none when the list is empty or absent. *)
Theorem firstSchedule_is_head (s : State) :
  firstSchedule s = match schedules s with
                    | Some l => head l
                    | None => None
                    end.
Proof. unfold firstSchedule. destruct (schedules s) as [[| x l] |]; reflexivity. Qed.

(** C10: mounted on the [setup] route, the component sends nothing and
    leaves nothing in flight; the schedule list is the one placeholder
    schedule, which is inactive, and [schedulesReady] is set. *)
Theorem onMounted_setup (now : Z) (s : State) :
  step now (Mounted (Some "setup")) s
  = Some (set_schedulesReady true (set_schedules (Some [setup_schedule now]) s), [])
  /\ inflight (fst (onMounted now (Some "setup") s)) = inflight s
  /\ calendarEvents (fst (onMounted now (Some "setup") s)) = calendarEvents s
  /\ schedules (fst (onMounted now (Some "setup") s)) = Some [setup_schedule now]
  /\ schedulesReady (fst (onMounted now (Some "setup") s)) = true
  /\ Schedule.active (setup_schedule now) = false
  /\ Schedule.weekdays (setup_schedule now) = [1; 2; 3; 4; 5]
  /\ Schedule.start_time (setup_schedule now) = "09:00"
  /\ Schedule.end_time (setup_schedule now) = "17:00"
  /\ Schedule.earliest_booking (setup_schedule now) = 1440
  /\ Schedule.farthest_booking (setup_schedule now) = 20160
  /\ Schedule.booking_confirmation (setup_schedule now) = true.
Proof. repeat split. Qed.

(** *** Runs *)

Lemma take_out_elem (p : Pending) (l : list Pending) :
  p ∈ l -> exists rest, take_out p l = Some rest /\ Permutation l (p :: rest).
Proof.
  induction l as [| q l IH]; intros Hin; [set_solver |].
  cbn [take_out]. destruct (decide (p = q)) as [-> | Hne].
  - exists l. split; reflexivity.
  - apply elem_of_cons in Hin as [Heq | Hin]; [congruence |].
    destruct (IH Hin) as (rest & -> & Hperm).
    exists (q :: rest). split; [reflexivity |].
    rewrite Hperm. apply perm_swap.
Qed.

Lemma take_out_Some (p : Pending) (l rest : list Pending) :
  take_out p l = Some rest -> p ∈ l.
Proof.
  revert rest. induction l as [| q l IH]; intros rest; cbn [take_out]; [discriminate |].
  destruct (decide (p = q)) as [-> | Hne]; [set_solver |].
  destruct (take_out p l) as [r |]; [| discriminate]. intros _.
  apply elem_of_cons. right. eapply IH. reflexivity.
Qed.

(** A settled fetch of remote events appends what it contributes. *)
Lemma step_settle_remote (now : Z) (url : string) (r : Reply) (s : State) :
  PRemote url ∈ inflight s -> remote_reply r = true ->
  exists rest,
    take_out (PRemote url) (inflight s) = Some rest /\
    Permutation (inflight s) (PRemote url :: rest) /\
    step now (Settle (PRemote url) r) s
    = Some (set_calendarEvents (calendarEvents s ++ contribution dj_other now r)
              (set_inflight rest s), []).
Proof.
  intros Hin Hr. destruct (take_out_elem _ _ Hin) as (rest & Hto & Hperm).
  exists rest. split; [exact Hto |]. split; [exact Hperm |].
  unfold_step. rewrite Hto.
  destruct r as [| data | [data |] |]; try discriminate Hr; cbn.
  - reflexivity.
  - rewrite app_nil_r. destruct s; reflexivity.
  - rewrite app_nil_r. destruct s; reflexivity.
Qed.

Lemma run_settles (order : list (Z * string * Reply)) (s : State) (rest : list Pending) :
  Forall (fun x => remote_reply (snd x) = true) order ->
  Permutation (inflight s) (map (fun x => PRemote (snd (fst x))) order ++ rest) ->
  exists s',
    run (settles order) s = Some (s', []) /\
    calendarEvents s'
    = calendarEvents s ++ flat_map (fun x => contribution dj_other (fst (fst x)) (snd x)) order /\
    Permutation (inflight s') rest /\
    connectedCalendars s' = connectedCalendars s.
Proof.
  revert s. induction order as [| [[now url] r] order IH]; intros s Hall Hperm.
  - exists s. cbn. rewrite app_nil_r. repeat split. exact Hperm.
  - apply Forall_cons in Hall as [Hr Hall]. cbn [fst snd] in Hr.
    cbn [map fst snd app] in Hperm.
    destruct (step_settle_remote now url r s) as (rest1 & Hto & Hp1 & Hstep).
    { rewrite Hperm. set_solver. }
    { exact Hr. }
    destruct (IH (set_calendarEvents (calendarEvents s ++ contribution dj_other now r)
                    (set_inflight rest1 s)) Hall) as (s' & Hrun & Hev & Hfl & Hcal).
    { cbn. apply (Permutation_cons_inv (a := PRemote url)).
      rewrite <- Hp1. exact Hperm. }
    exists s'. simpl_run. rewrite Hstep.
    fold (settles order). rewrite Hrun.
    repeat split; [| exact Hfl | exact Hcal].
    rewrite Hev. cbn. rewrite app_assoc. reflexivity.
Qed.

Lemma flat_map_contribution_filter (order : list (Z * string * Reply)) :
  flat_map (fun x => contribution dj_other (fst (fst x)) (snd x)) order
  = flat_map (fun x => contribution dj_other (fst (fst x)) (snd x))
             (filter (fun x => failed (snd x) = false) order).
Proof.
  induction order as [| [[now url] r] order IH]; [reflexivity |].
  rewrite filter_cons. cbn [flat_map fst snd]. case_decide as Hf.
  - cbn [flat_map fst snd]. rewrite IH. reflexivity.
  - rewrite <- IH. destruct r as [| data | [data |] |]; cbn in *; congruence.
Qed.

(** A request that failed leaves the state a request that delivered an
    empty list leaves. *)
Lemma failed_reply_as_empty (now : Z) (url : string) (r : Reply) (s : State) :
  remote_reply r = true -> failed r = true ->
  step now (Settle (PRemote url) r) s
  = step now (Settle (PRemote url) (RemoteData (Some []))) s.
Proof.
  intros Hr Hf. unfold_step. destruct (take_out (PRemote url) (inflight s)) as [rest |];
    [| reflexivity].
  destruct r as [| data | [data |] |]; try discriminate; cbn;
    rewrite app_nil_r; destruct s; reflexivity.
Qed.

(** C2 (as amended): once every request of a query has settled, in
    whatever order, the event list holds what the requests that
    delivered a list contribute, in the order they settled; a request
    that failed contributes nothing and stops no other request, and it
    is recorded nowhere: it leaves the state a request that delivered
    an empty list leaves. *)
Theorem failed_fetch_isolated (now : Z) (from to : string) (s : State)
    (order : list (Z * string * Reply)) :
  Forall (fun x => remote_reply (snd x) = true) order ->
  Permutation (map (fun x => ECall (snd (fst x))) order)
              (snd (getRemoteEvents now from to s)) ->
  (exists s',
      run (settles order) (fst (getRemoteEvents now from to s)) = Some (s', []) /\
      calendarEvents s'
      = flat_map (fun x => contribution dj_other (fst (fst x)) (snd x))
                 (filter (fun x => failed (snd x) = false) order) /\
      Permutation (inflight s') (inflight s)) /\
  (forall x s1,
      x ∈ order -> failed (snd x) = true ->
      step (fst (fst x)) (Settle (PRemote (snd (fst x))) (snd x)) s1
      = step (fst (fst x)) (Settle (PRemote (snd (fst x))) (RemoteData (Some []))) s1).
Proof.
  intros Hall Hperm. split.
  - destruct (run_settles order (fst (getRemoteEvents now from to s)) (inflight s) Hall)
      as (s' & Hrun & Hev & Hfl & _).
    + unfold_getRemoteEvents. cbn [fst inflight set_inflight].
      rewrite Permutation_app_comm. apply Permutation_app_tail.
      unfold_getRemoteEvents_in Hperm. cbn [snd] in Hperm.
      apply (Permutation_map
               (fun e => match e with ECall u => PRemote u | ERefresh => PRefresh end))
        in Hperm.
      rewrite !map_map in Hperm. rewrite map_map. symmetry. exact Hperm.
    + exists s'. split; [exact Hrun |]. split; [| exact Hfl].
      rewrite Hev, <- flat_map_contribution_filter. reflexivity.
  - intros x s1 Hx Hf. apply failed_reply_as_empty; [| exact Hf].
    rewrite List.Forall_forall in Hall. apply Hall, list_elem_of_In, Hx.
Qed.

(** C3 (as amended): starting a query empties the event list and
    cancels nothing: a request that was in flight stays in flight, and
    when it then delivers a list, its events, each with its duration,
    are put into the event list the new query has emptied. *)
Theorem superseded_fetch_delivers (now1 now2 : Z) (from to url : string)
    (data : list RemoteEvent) (s : State) :
  PRemote url ∈ inflight s ->
  calendarEvents (fst (getRemoteEvents now1 from to s)) = [] /\
  PRemote url ∈ inflight (fst (getRemoteEvents now1 from to s)) /\
  exists s2,
    step now2 (Settle (PRemote url) (RemoteData (Some data)))
         (fst (getRemoteEvents now1 from to s)) = Some (s2, []) /\
    calendarEvents s2 = map (with_duration now2) data.
Proof.
  intros Hin.
  assert (PRemote url ∈ inflight (fst (getRemoteEvents now1 from to s))) as Hin1.
  { unfold_getRemoteEvents. cbn [fst inflight set_inflight].
    apply elem_of_app. left. exact Hin. }
  split; [reflexivity |]. split; [exact Hin1 |].
  destruct (step_settle_remote now2 url (RemoteData (Some data)) _ Hin1 eq_refl)
    as (rest & _ & _ & Hstep).
  eexists. split; [exact Hstep |]. reflexivity.
Qed.

(** *** What the handlers send *)

(** Requests for remote events are sent by [getRemoteEvents] only. *)
Lemma step_effects (now : Z) (ev : Event) (s s' : State) (effs : list Effect) :
  step now ev s = Some (s', effs) ->
  effs = [] \/ effs = [ERefresh] \/ effs = [ECall "schedule/"] \/
  exists from to s1, effs = snd (getRemoteEvents now from to s1).
Proof.
  destruct ev as [route_name | dateObj | | schedule | calendars | p r]; unfold_step.
  - snd_inv effs. unfold_onMounted. case_bool_decide; auto.
  - snd_inv effs. unfold_onDateChange. destruct (_ || _); [| auto].
    right. right. right. eauto.
  - snd_inv effs. auto.
  - snd_inv effs. auto.
  - snd_inv effs. auto.
  - destruct (take_out p (inflight s)) as [rest |]; [| discriminate].
    destruct p as [| mounting | url].
    + destruct r; try discriminate; snd_inv effs; auto.
    + destruct r as [| data | |]; try discriminate.
      * destruct mounting; snd_inv effs; [| auto].
        right. right. right. eauto.
      * snd_inv effs. auto.
    + destruct r as [| | [data |] |]; try discriminate; snd_inv effs; auto.
Qed.

(** *** What no handler changes *)

Lemma step_activeDateRange (now : Z) (ev : Event) (s s' : State) (effs : list Effect) :
  step now ev s = Some (s', effs) -> activeDateRange s' = activeDateRange s.
Proof.
  destruct ev as [route_name | dateObj | | schedule | calendars | p r]; unfold_step.
  - pair_inv s'. unfold_handlers. case_bool_decide; reflexivity.
  - pair_inv s'. unfold_handlers. destruct (_ || _); reflexivity.
  - pair_inv s'. reflexivity.
  - pair_inv s'. reflexivity.
  - pair_inv s'. reflexivity.
  - destruct (take_out p (inflight s)) as [rest |]; [| discriminate].
    destruct p as [| mounting | url]; unfold_handlers.
    + destruct r; try discriminate; pair_inv s'; reflexivity.
    + destruct r as [| data | |]; try discriminate.
      * destruct mounting; pair_inv s'; reflexivity.
      * pair_inv s'. reflexivity.
    + destruct r as [| | [data |] |]; try discriminate; pair_inv s'; reflexivity.
Qed.

Lemma run_activeDateRange (trace : list (Z * Event)) (s s' : State) (effs : list Effect) :
  run trace s = Some (s', effs) -> activeDateRange s' = activeDateRange s.
Proof.
  revert s effs. induction trace as [| [now ev] trace IH]; intros s effs; simpl_run.
  - intros [= <- _]. reflexivity.
  - destruct (step now ev s) as [[s1 effs1] |] eqn:Hstep; [| discriminate].
    destruct (run trace s1) as [[s2 effs2] |] eqn:Hrun; [| discriminate].
    intros [= <- _]. rewrite (IH _ _ Hrun). eapply step_activeDateRange, Hstep.
Qed.

(** C8: in every state the component reaches, [activeDateRange] is
    the range set up at initialisation, so [onDateChange] compares the
    months of the new range with the months of the ends of that initial
    range: when they agree nothing is fetched, otherwise the remote
    events are fetched.  Both ends of the initial range lie in one
    month, and it is the month of the initial date unless the year of
    that date is one of 0 to 99. *)
Theorem activeDateRange_never_updated (now0 : Z) (route_date : option string)
    (calendars : list Calendar.t) (trace : list (Z * Event)) (s : State)
    (effs : list Effect) :
  run trace (init now0 route_date calendars) = Some (s, effs) ->
  activeDateRange s = activeDateRange (init now0 route_date calendars) /\
  (forall (now : Z) (dateObj : TimeFormatted.t),
      let start := dj now (Some (VStr (TimeFormatted.start dateObj))) in
      let end_ := dj now (Some (VStr (TimeFormatted.end_ dateObj))) in
      let s1 := set_activeDate
                  (Dayjs.add_minutes_div (Dayjs.diff_minutes end_ start) 2 start) s in
      let initial := activeDateRange (init now0 route_date calendars) in
      onDateChange now dateObj s
      = if String.eqb (Dayjs.format_ym (DateRange.end_ initial)) (Dayjs.format_ym end_)
           && String.eqb (Dayjs.format_ym (DateRange.start initial)) (Dayjs.format_ym start)
        then (s1, [])
        else getRemoteEvents now (Dayjs.format_ymd start) (Dayjs.format_ymd end_) s1) /\
  Dayjs.format_ym (DateRange.start (activeDateRange (init now0 route_date calendars)))
  = Dayjs.format_ym (DateRange.end_ (activeDateRange (init now0 route_date calendars))) /\
  (Dayjs.year_kept (activeDate (init now0 route_date calendars)) ->
   Dayjs.format_ym (DateRange.start (activeDateRange (init now0 route_date calendars)))
   = Dayjs.format_ym (activeDate (init now0 route_date calendars))).
Proof.
  intros Hrun. pose proof (run_activeDateRange _ _ _ _ Hrun) as Hfixed.
  split; [exact Hfixed |]. split; [| split].
  - intros now dateObj start end_ s1 initial.
    unfold_onDateChange. fold start end_ s1.
    replace (activeDateRange s1) with initial by (symmetry; exact Hfixed).
    destruct (String.eqb (Dayjs.format_ym (DateRange.end_ initial)) (Dayjs.format_ym end_)),
             (String.eqb (Dayjs.format_ym (DateRange.start initial)) (Dayjs.format_ym start));
      reflexivity.
  - apply (DayjsFacts.format_ym_month_ends (activeDate (init now0 route_date calendars))).
  - apply (DayjsFacts.format_ym_startOf_month (activeDate (init now0 route_date calendars))).
Qed.

(** *** Where stored events come from *)

Lemma with_duration_lookup (now : Z) (event : RemoteEvent) :
  with_duration now event !! "duration"
  = Some (VNum (Dayjs.diff_minutes (dj now (event !! "end")) (dj now (event !! "start"))))
  /\ forall k : string, k <> "duration" -> with_duration now event !! k = event !! k.
Proof.
  unfold_with_duration. split.
  - apply lookup_insert_eq.
  - intros k Hk. apply lookup_insert_ne. congruence.
Qed.

Lemma step_calendarEvents (now : Z) (e : Event) (s s' : State) (effs : list Effect)
    (ev : RemoteEvent) :
  step now e s = Some (s', effs) -> ev ∈ calendarEvents s' ->
  ev ∈ calendarEvents s \/
  exists url data event,
    e = Settle (PRemote url) (RemoteData (Some data)) /\ event ∈ data /\
    ev = with_duration now event.
Proof.
  destruct e as [route_name | dateObj | | schedule | calendars | p r]; unfold_step.
  - pair_inv s'. unfold_handlers. case_bool_decide; auto.
  - pair_inv s'. unfold_handlers. destruct (_ || _); cbn; [set_solver | auto].
  - pair_inv s'. auto.
  - pair_inv s'. auto.
  - pair_inv s'. auto.
  - destruct (take_out p (inflight s)) as [rest |]; [| discriminate].
    destruct p as [| mounting | url]; unfold_handlers.
    + destruct r; try discriminate; pair_inv s'; auto.
    + destruct r as [| data | |]; try discriminate.
      * destruct mounting; pair_inv s'; cbn; [set_solver | auto].
      * pair_inv s'. auto.
    + destruct r as [| | [data |] |]; try discriminate; pair_inv s'; auto.
      cbn. intros [Hold | Hnew]%elem_of_app; [auto |]. right.
      apply list_elem_of_In, in_map_iff in Hnew as (event & <- & Hin).
      exists url, data, event. split; [reflexivity |]. split; [| reflexivity].
      apply list_elem_of_In. exact Hin.
Qed.

Lemma run_calendarEvents (trace : list (Z * Event)) (s s' : State) (effs : list Effect)
    (ev : RemoteEvent) :
  run trace s = Some (s', effs) -> ev ∈ calendarEvents s' ->
  ev ∈ calendarEvents s \/
  exists now url data event,
    (now, Settle (PRemote url) (RemoteData (Some data))) ∈ trace /\ event ∈ data /\
    ev = with_duration now event.
Proof.
  revert s effs. induction trace as [| [now e] trace IH]; intros s effs; simpl_run.
  - intros [= <- _]. auto.
  - destruct (step now e s) as [[s1 effs1] |] eqn:Hstep; [| discriminate].
    destruct (run trace s1) as [[s2 effs2] |] eqn:Hrun; [| discriminate].
    intros [= <- _] Hev.
    destruct (IH _ _ Hrun Hev) as [Hs1 | (now' & url & data & event & Hin & Hd & Heq)].
    + destruct (step_calendarEvents _ _ _ _ _ _ Hstep Hs1)
        as [Hs | (url & data & event & -> & Hd & Heq)]; [auto |].
      right. exists now, url, data, event. split; [apply elem_of_cons; auto | auto].
    + right. exists now', url, data, event. split; [apply elem_of_cons; auto | auto].
Qed.

(** C9: every event in the event list of a state the component
    reaches is an event of a delivered remote event list with a
    [duration] member set to the whole minutes from its start to its
    end, and every other member as delivered. *)
Theorem stored_event_duration (now0 : Z) (route_date : option string)
    (calendars : list Calendar.t) (trace : list (Z * Event)) (s : State)
    (effs : list Effect) (ev : RemoteEvent) :
  run trace (init now0 route_date calendars) = Some (s, effs) ->
  ev ∈ calendarEvents s ->
  exists now url data event,
    (now, Settle (PRemote url) (RemoteData (Some data))) ∈ trace /\ event ∈ data /\
    ev !! "duration"
    = Some (VNum (Dayjs.diff_minutes (dj now (event !! "end")) (dj now (event !! "start")))) /\
    (forall t_start t_end,
        dj now (event !! "start") = Some t_start -> dj now (event !! "end") = Some t_end ->
        ev !! "duration" = Some (VNum (Dayjs.Num (Z.quot (t_end - t_start) 60000)))) /\
    (forall k : string, k <> "duration" -> ev !! k = event !! k).
Proof.
  intros Hrun Hev.
  destruct (run_calendarEvents _ _ _ _ _ Hrun Hev)
    as [Hinit | (now & url & data & event & Hin & Hd & ->)].
  - unfold_init_in Hinit. cbn in Hinit. set_solver.
  - exists now, url, data, event. destruct (with_duration_lookup now event) as [Hdur Hrest].
    repeat split; auto.
    intros t_start t_end Hs He. rewrite Hdur, Hs, He. reflexivity.
Qed.

(** *** The initial state *)

(** X1: the range set up at initialisation is a whole month: it
    starts at the midnight that begins the first day of a month and
    ends one millisecond before the next month begins.  It is the month
    of the active date, with the active date between its ends, unless
    the year of the active date is one of 0 to 99: then it is that
    month of the year 1900 later, and the active date lies before it.
    An invalid active date gives an invalid range.  Without a date in
    the route the active date is the clock reading. *)
Theorem init_range_brackets (now : Z) (route_date : option string)
    (calendars : list Calendar.t) :
  match activeDate (init now route_date calendars) with
  | Some t =>
      exists a b,
        activeDateRange (init now route_date calendars)
        = DateRange.Build (Some a) (Some b) /\
        a <= b /\
        Dayjs.format_ym (Some a) = Dayjs.format_ym (Some b) /\
        Dayjs.day (Dayjs.civil_of_ms a) = 1 /\ a mod Dayjs.msPerDay = 0 /\
        Dayjs.day (Dayjs.civil_of_ms (b + 1)) = 1 /\ (b + 1) mod Dayjs.msPerDay = 0 /\
        Dayjs.month (Dayjs.civil_of_ms a) = Dayjs.month (Dayjs.civil_of_ms t) /\
        (Dayjs.year_kept (Some t) ->
         a <= t <= b /\
         Dayjs.format_ym (Some a) = Dayjs.format_ym (Some t) /\
         Dayjs.format_ym (Some b) = Dayjs.format_ym (Some t)) /\
        (0 <= Dayjs.year (Dayjs.civil_of_ms t) <= 99 ->
         Dayjs.year (Dayjs.civil_of_ms a) = 1900 + Dayjs.year (Dayjs.civil_of_ms t) /\
         t < a)
  | None =>
      activeDateRange (init now route_date calendars) = DateRange.Build None None
  end /\
  (route_date = None \/ route_date = Some "" ->
   activeDate (init now route_date calendars) = Some now).
Proof.
  split.
  - replace (activeDateRange (init now route_date calendars))
      with (DateRange.Build
              (Dayjs.startOf_month (activeDate (init now route_date calendars)))
              (Dayjs.endOf_month (activeDate (init now route_date calendars))))
      by reflexivity.
    destruct (activeDate (init now route_date calendars)) as [t |]; [| reflexivity].
    pose proof (DayjsFacts.format_ym_month_ends (Some t)) as Hends.
    pose proof (DayjsFacts.format_ym_startOf_month (Some t)) as Hfs.
    pose proof (DayjsFacts.format_ym_endOf_month (Some t)) as Hfe.
    destruct (DayjsFacts.civil_startOf_month_host t) as [Hsd Hs].
    destruct (DayjsFacts.civil_endOf_month_host t) as [Hed He].
    rewrite Hsd, Hed in *. clear Hsd Hed.
    destruct (DayjsFacts.valid_civil_of_ms t) as [Hm Hd].
    pose proof (DayjsFacts.month_of_day (t / Dayjs.msPerDay)) as Hb.
    fold (Dayjs.civil_of_ms t) in Hb.
    pose proof (DayjsFacts.month_span (Dayjs.host_year (Dayjs.year (Dayjs.civil_of_ms t)))
                  (Dayjs.month (Dayjs.civil_of_ms t)) Hm) as Hspan.
    pose proof (DayjsFacts.century_later (Dayjs.year (Dayjs.civil_of_ms t))
                  (Dayjs.month (Dayjs.civil_of_ms t))) as Hlater.
    eexists _, _. split; [reflexivity |].
    split; [unfold Dayjs.msPerDay; lia |].
    split; [exact Hends |].
    split; [rewrite Hs; reflexivity |].
    split; [apply Z.mod_mul; discriminate |].
    split.
    { rewrite Z.sub_add, DayjsFacts.civil_of_ms_midnight.
      apply DayjsFacts.day_of_next_month, Hm. }
    split; [rewrite Z.sub_add; apply Z.mod_mul; discriminate |].
    split; [rewrite Hs; reflexivity |].
    split.
    + intros Hkept. split; [| split; [exact (Hfs Hkept) | exact (Hfe Hkept)]].
      cbn [Dayjs.year_kept] in Hkept. rewrite DayjsFacts.host_year_kept by exact Hkept.
      unfold Dayjs.msPerDay in *. Z.div_mod_to_equations. lia.
    + intros Hcentury. rewrite Hs. cbn [Dayjs.year].
      rewrite DayjsFacts.host_year_century by exact Hcentury.
      split; [reflexivity |].
      specialize (Hlater Hcentury Hm).
      unfold Dayjs.msPerDay in *. Z.div_mod_to_equations. lia.
  - intros [-> | ->]; reflexivity.
Qed.

(** *** Date changes *)

(** X2: after a date change with a readable range that does not end
    before it starts, the active date lies in the range, less than a
    minute before its middle. *)
Theorem onDateChange_activeDate (now : Z) (dateObj : TimeFormatted.t) (s : State)
    (t_start t_end : Z) :
  dj now (Some (VStr (TimeFormatted.start dateObj))) = Some t_start ->
  dj now (Some (VStr (TimeFormatted.end_ dateObj))) = Some t_end ->
  t_start <= t_end ->
  exists t,
    activeDate (fst (onDateChange now dateObj s)) = Some t /\
    t_start <= t <= t_end /\
    0 <= (t_end - t) - (t - t_start) < 60000.
Proof.
  intros Hs He Hle. unfold_onDateChange. rewrite Hs, He.
  exists (t_start + Z.quot (Z.quot (t_end - t_start) 60000 * 60000) 2). split.
  - destruct (_ || _); reflexivity.
  - rewrite (Z.quot_div_nonneg (t_end - t_start) 60000) by lia.
    rewrite Z.quot_div_nonneg by (try lia; Z.div_mod_to_equations; lia).
    Z.div_mod_to_equations. lia.
Qed.

(** The requests of a query whose [to] is a formatted date. *)
Lemma getRemoteEvents_ymd (now : Z) (from : string) (c : Dayjs.civil) (s : State) :
  Dayjs.valid_civil c -> 100 <= Dayjs.year c <= 9999 ->
  getRemoteEvents now from (Dayjs.ymd c) s
  = (set_inflight
       (inflight s
        ++ map (fun calendar =>
                  PRemote (remote_url calendar from (Dayjs.ymd (Dayjs.next_day c))))
               (connectedCalendars s))
       (set_calendarEvents [] s),
     map (fun calendar =>
            ECall (remote_url calendar from (Dayjs.ymd (Dayjs.next_day c))))
         (connectedCalendars s)).
Proof.
  intros Hc Hy. unfold_getRemoteEvents. rewrite dj_ymd by assumption.
  unfold Dayjs.add_days, Dayjs.format_ymd.
  rewrite DayjsFacts.civil_of_ms_add_day, DayjsFacts.civil_of_day_succ by assumption.
  rewrite !map_map. reflexivity.
Qed.

Lemma format_dj_ymd (now : Z) (c : Dayjs.civil) :
  Dayjs.valid_civil c -> 100 <= Dayjs.year c <= 9999 ->
  Dayjs.format_ymd (dj now (Some (VStr (Dayjs.ymd c)))) = Dayjs.ymd c /\
  Dayjs.format_ym (dj now (Some (VStr (Dayjs.ymd c)))) = Dayjs.ym c.
Proof.
  intros Hc Hy. rewrite dj_ymd by assumption.
  unfold Dayjs.format_ymd, Dayjs.format_ym.
  rewrite DayjsFacts.civil_of_ms_midnight.
  destruct c as [y m d]. destruct Hc as [Hm Hd]. cbn [Dayjs.year Dayjs.month Dayjs.day] in *.
  rewrite DayjsFacts.civil_of_day_of_civil by assumption. split; reflexivity.
Qed.

(** X3: a date change to a range of two formatted dates, one of which
    is not in the month of the stored range, empties the event list and
    asks every connected calendar for the events from the first date to
    the day after the last date. *)
Theorem onDateChange_requests (now : Z) (c_start c_end : Dayjs.civil) (s : State) :
  Dayjs.valid_civil c_start -> 100 <= Dayjs.year c_start <= 9999 ->
  Dayjs.valid_civil c_end -> 100 <= Dayjs.year c_end <= 9999 ->
  Dayjs.format_ym (DateRange.end_ (activeDateRange s)) <> Dayjs.ym c_end
  \/ Dayjs.format_ym (DateRange.start (activeDateRange s)) <> Dayjs.ym c_start ->
  snd (onDateChange now (TimeFormatted.Build (Dayjs.ymd c_start) (Dayjs.ymd c_end)) s)
  = map (fun calendar =>
           ECall ("rmt/cal/" +:+ Dayjs.decimal (Calendar.id calendar) +:+ "/"
                  +:+ Dayjs.ymd c_start +:+ "/" +:+ Dayjs.ymd (Dayjs.next_day c_end)))
        (connectedCalendars s) /\
  calendarEvents
    (fst (onDateChange now (TimeFormatted.Build (Dayjs.ymd c_start) (Dayjs.ymd c_end)) s))
  = [] /\
  inflight
    (fst (onDateChange now (TimeFormatted.Build (Dayjs.ymd c_start) (Dayjs.ymd c_end)) s))
  = inflight s
    ++ map (fun calendar =>
              PRemote ("rmt/cal/" +:+ Dayjs.decimal (Calendar.id calendar) +:+ "/"
                       +:+ Dayjs.ymd c_start +:+ "/" +:+ Dayjs.ymd (Dayjs.next_day c_end)))
           (connectedCalendars s).
Proof.
  intros Hcs Hys Hce Hye Hmonth. unfold_onDateChange.
  cbn [TimeFormatted.start TimeFormatted.end_ activeDateRange set_activeDate].
  destruct (format_dj_ymd now c_start Hcs Hys) as [Hfs Hms].
  destruct (format_dj_ymd now c_end Hce Hye) as [Hfe Hme].
  rewrite Hfs, Hms, Hfe, Hme.
  assert (negb (Dayjs.format_ym (DateRange.end_ (activeDateRange s)) =? Dayjs.ym c_end)%string
          || negb (Dayjs.format_ym (DateRange.start (activeDateRange s))
                   =? Dayjs.ym c_start)%string = true) as ->.
  { apply orb_true_iff.
    destruct Hmonth as [H | H]; [left | right];
      apply negb_true_iff, String.eqb_neq; exact H. }
  rewrite getRemoteEvents_ymd by assumption. cbn [fst snd].
  split; [reflexivity |]. split; reflexivity.
Qed.

(** *** Mounting *)

Lemma take_out_here (p : Pending) (l : list Pending) : take_out p (p :: l) = Some l.
Proof. cbn [take_out]. destruct (decide (p = p)); [reflexivity | contradiction]. Qed.

(** X4: mounted on another route than [setup], the component refreshes
    the stores, then asks for the schedules, and when they arrive
    stores them, sets [schedulesReady], and asks every connected
    calendar for the events of the month of the active date: from its
    first day to the first day of the next month. *)
Theorem mounted_loads (now0 now1 now2 now3 : Z) (route_date : option string)
    (calendars : list Calendar.t) (route_name : option string)
    (data : option (list Schedule.t)) (t : Z) :
  route_name <> Some "setup" ->
  activeDate (init now0 route_date calendars) = Some t ->
  100 <= Dayjs.year (Dayjs.civil_of_ms t) <= 9999 ->
  exists s' urls,
    urls
    = map (fun calendar =>
             "rmt/cal/" +:+ Dayjs.decimal (Calendar.id calendar) +:+ "/"
             +:+ Dayjs.ymd (Dayjs.Civil (Dayjs.year (Dayjs.civil_of_ms t))
                              (Dayjs.month (Dayjs.civil_of_ms t)) 1)
             +:+ "/"
             +:+ Dayjs.ymd
                   (Dayjs.next_day
                      (Dayjs.Civil (Dayjs.year (Dayjs.civil_of_ms t))
                         (Dayjs.month (Dayjs.civil_of_ms t))
                         (Dayjs.days_in_month (Dayjs.year (Dayjs.civil_of_ms t))
                            (Dayjs.month (Dayjs.civil_of_ms t))))))
          calendars /\
    run [(now1, Mounted route_name);
         (now2, Settle PRefresh RefreshDone);
         (now3, Settle (PSchedule true) (ScheduleData data))]
        (init now0 route_date calendars)
    = Some (s', ERefresh :: ECall "schedule/" :: map ECall urls) /\
    inflight s' = map PRemote urls /\
    schedules s' = data /\ schedulesReady s' = true /\ calendarEvents s' = [] /\
    activeDate s' = Some t.
Proof.
  intros Hroute Hdate Hyear.
  destruct (DayjsFacts.valid_civil_of_ms t) as [Hm Hd].
  pose proof (DayjsFacts.month_length_bounds
                (Dayjs.is_leap (Dayjs.year (Dayjs.civil_of_ms t)))
                (Dayjs.month (Dayjs.civil_of_ms t))) as L.
  simpl_run. unfold_step. unfold_onMounted.
  rewrite bool_decide_eq_false_2 by exact Hroute.
  cbn [fst snd inflight set_inflight app].
  replace (inflight (init now0 route_date calendars)) with (@nil Pending) by reflexivity.
  cbn [app]. rewrite take_out_here.
  cbn [mountedAfterRefresh getFirstSchedule inflight set_inflight app].
  rewrite take_out_here.
  cbn [scheduleSettled activeDate set_schedulesReady set_schedules set_inflight].
  rewrite Hdate. cbn [Dayjs.startOf_month Dayjs.endOf_month Dayjs.format_ymd].
  rewrite DayjsFacts.host_year_kept by lia.
  rewrite DayjsFacts.civil_first_of_month, DayjsFacts.civil_last_of_month by exact Hm.
  rewrite getRemoteEvents_ymd
    by (try split; cbn [Dayjs.year Dayjs.month Dayjs.day];
        try assumption; unfold Dayjs.days_in_month; lia).
  rewrite app_nil_r. eexists _, _. split; [reflexivity |].
  rewrite !map_map. split; [reflexivity |]. cbn.
  repeat split; try reflexivity. exact Hdate.
Qed.

(** X5: when the refresh of the stores or the request for the
    schedules is rejected, the mount goes no further: no request
    follows and the component is left as it was initialised, with
    [schedulesReady] unset. *)
Theorem mounted_rejected (now0 now1 now2 now3 : Z) (route_date : option string)
    (calendars : list Calendar.t) (route_name : option string) :
  route_name <> Some "setup" ->
  run [(now1, Mounted route_name); (now2, Settle PRefresh Rejected)]
      (init now0 route_date calendars)
  = Some (init now0 route_date calendars, [ERefresh]) /\
  run [(now1, Mounted route_name); (now2, Settle PRefresh RefreshDone);
       (now3, Settle (PSchedule true) Rejected)]
      (init now0 route_date calendars)
  = Some (init now0 route_date calendars, [ERefresh; ECall "schedule/"]) /\
  schedulesReady (init now0 route_date calendars) = false.
Proof.
  intros Hroute. split; [| split; [| reflexivity]].
  - simpl_run. unfold_step. unfold_onMounted.
    rewrite bool_decide_eq_false_2 by exact Hroute.
    cbn [fst snd inflight set_inflight app].
    replace (inflight (init now0 route_date calendars)) with (@nil Pending) by reflexivity.
    cbn [app]. rewrite take_out_here. reflexivity.
  - simpl_run. unfold_step. unfold_onMounted.
    rewrite bool_decide_eq_false_2 by exact Hroute.
    cbn [fst snd inflight set_inflight app].
    replace (inflight (init now0 route_date calendars)) with (@nil Pending) by reflexivity.
    cbn [app]. rewrite take_out_here.
    cbn [mountedAfterRefresh getFirstSchedule inflight set_inflight app].
    rewrite take_out_here. reflexivity.
Qed.

(** *** Runs, event by event *)

Lemma run_cons_inv (now : Z) (ev : Event) (trace : list (Z * Event)) (s s' : State)
    (effs : list Effect) :
  run ((now, ev) :: trace) s = Some (s', effs) ->
  exists s1 effs1 effs2,
    step now ev s = Some (s1, effs1) /\ run trace s1 = Some (s', effs2) /\
    effs = effs1 ++ effs2.
Proof.
  simpl_run. destruct (step now ev s) as [[s1 effs1] |] eqn:Hstep; [| discriminate].
  destruct (run trace s1) as [[s2 effs2] |] eqn:Hrun; [| discriminate].
  intros [= <- <-]. exists s1, effs1, effs2. auto.
Qed.

(** A run of two traces in a row is the run of the first followed by
    the run of the second. *)
Lemma run_app_inv (before after : list (Z * Event)) (s s' : State) (effs : list Effect) :
  run (before ++ after) s = Some (s', effs) ->
  exists s1 effs1 effs2,
    run before s = Some (s1, effs1) /\ run after s1 = Some (s', effs2) /\
    effs = effs1 ++ effs2.
Proof.
  revert s effs. induction before as [| [now ev] before IH]; intros s effs Hrun.
  - exists s, [], effs. auto.
  - rewrite <- app_comm_cons in Hrun.
    apply run_cons_inv in Hrun as (s1 & effs1 & effs2 & Hstep & Hrun & ->).
    apply IH in Hrun as (s2 & effs3 & effs4 & Hrun1 & Hrun2 & ->).
    exists s2, (effs1 ++ effs3), effs4. simpl_run. rewrite Hstep, Hrun1.
    rewrite app_assoc. auto.
Qed.

(** *** [schedulesReady] *)

Lemma step_schedulesReady (now : Z) (ev : Event) (s s' : State) (effs : list Effect) :
  step now ev s = Some (s', effs) ->
  schedulesReady s' = schedulesReady s || sets_ready ev.
Proof.
  destruct ev as [route_name | dateObj | | schedule | calendars | p r]; unfold_step.
  - pair_inv s'. unfold_onMounted. cbn [sets_ready].
    case_bool_decide; cbn; [rewrite orb_true_r | rewrite orb_false_r]; reflexivity.
  - pair_inv s'. unfold_handlers. destruct (_ || _); cbn; rewrite orb_false_r; reflexivity.
  - pair_inv s'. cbn. rewrite orb_false_r. reflexivity.
  - pair_inv s'. cbn. rewrite orb_false_r. reflexivity.
  - pair_inv s'. cbn. rewrite orb_false_r. reflexivity.
  - destruct (take_out p (inflight s)) as [rest |]; [| discriminate].
    destruct p as [| mounting | url]; unfold_handlers.
    + destruct r; try discriminate; pair_inv s'; cbn; rewrite orb_false_r; reflexivity.
    + destruct r as [| data | |]; try discriminate.
      * destruct mounting; pair_inv s'; cbn;
          [rewrite orb_true_r | rewrite orb_false_r]; reflexivity.
      * pair_inv s'. cbn. destruct mounting; rewrite orb_false_r; reflexivity.
    + destruct r as [| | [data |] |]; try discriminate; pair_inv s'; cbn;
        rewrite orb_false_r; reflexivity.
Qed.

Lemma run_schedulesReady (trace : list (Z * Event)) (s s' : State) (effs : list Effect) :
  run trace s = Some (s', effs) ->
  schedulesReady s' = schedulesReady s || existsb (fun x => sets_ready (snd x)) trace.
Proof.
  revert s effs. induction trace as [| [now ev] trace IH]; intros s effs Hrun.
  - injection Hrun as <- _. cbn. rewrite orb_false_r. reflexivity.
  - apply run_cons_inv in Hrun as (s1 & effs1 & effs2 & Hstep & Hrun & _).
    rewrite (IH _ _ Hrun), (step_schedulesReady _ _ _ _ _ Hstep).
    cbn [existsb snd]. rewrite orb_assoc. reflexivity.
Qed.

(** X6: in a state the component reaches, [schedulesReady] is set
    exactly when it was mounted on the [setup] route or the schedules
    its mount asked for have arrived; no handler unsets it, and a
    rejected request or a schedule request after [created] does not
    set it. *)
Theorem schedulesReady_iff (now0 : Z) (route_date : option string)
    (calendars : list Calendar.t) (trace : list (Z * Event)) (s : State)
    (effs : list Effect) :
  run trace (init now0 route_date calendars) = Some (s, effs) ->
  (schedulesReady s = true <->
   (exists now, (now, Mounted (Some "setup")) ∈ trace) \/
   (exists now data, (now, Settle (PSchedule true) (ScheduleData data)) ∈ trace)).
Proof.
  intros Hrun. rewrite (run_schedulesReady _ _ _ _ Hrun).
  replace (schedulesReady (init now0 route_date calendars)) with false by reflexivity.
  cbn [orb]. rewrite existsb_exists. split.
  - intros ([now ev] & Hin & Hset). apply list_elem_of_In in Hin. cbn [snd] in Hset.
    destruct ev as [route_name | | | | | p r]; try discriminate Hset.
    + cbn in Hset. apply bool_decide_eq_true_1 in Hset as ->. left. eauto.
    + destruct p as [| [|] |]; try discriminate Hset.
      destruct r as [| data | |]; try discriminate Hset. right. eauto.
  - intros [(now & Hin) | (now & data & Hin)]; apply list_elem_of_In in Hin.
    + exists (now, Mounted (Some "setup")). split; [exact Hin | reflexivity].
    + exists (now, Settle (PSchedule true) (ScheduleData data)).
      split; [exact Hin | reflexivity].
Qed.

(** *** [schedules] *)

Lemma step_schedules (now : Z) (ev : Event) (s s' : State) (effs : list Effect) :
  step now ev s = Some (s', effs) ->
  schedules s' = schedules s \/
  (ev = Mounted (Some "setup") /\ schedules s' = Some [setup_schedule now]) \/
  (exists mounting data,
      ev = Settle (PSchedule mounting) (ScheduleData data) /\ schedules s' = data).
Proof.
  destruct ev as [route_name | dateObj | | schedule | calendars | p r]; unfold_step.
  - pair_inv s'. unfold_onMounted. case_bool_decide as Hr; [| auto].
    subst route_name. right. left. auto.
  - pair_inv s'. unfold_handlers. destruct (_ || _); auto.
  - pair_inv s'. auto.
  - pair_inv s'. auto.
  - pair_inv s'. auto.
  - destruct (take_out p (inflight s)) as [rest |]; [| discriminate].
    destruct p as [| mounting | url]; unfold_handlers.
    + destruct r; try discriminate; pair_inv s'; auto.
    + destruct r as [| data | |]; try discriminate.
      * destruct mounting; pair_inv s'; right; right; eauto.
      * pair_inv s'. auto.
    + destruct r as [| | [data |] |]; try discriminate; pair_inv s'; auto.
Qed.

(** X7: the schedule list of a state the component reaches is the
    empty list it starts with, the placeholder of a mount on the
    [setup] route, or whatever a reply to a schedule request
    delivered, a list or not. *)
Theorem schedules_provenance (now0 : Z) (route_date : option string)
    (calendars : list Calendar.t) (trace : list (Z * Event)) (s : State)
    (effs : list Effect) :
  run trace (init now0 route_date calendars) = Some (s, effs) ->
  schedules s = Some [] \/
  (exists now, (now, Mounted (Some "setup")) ∈ trace /\
               schedules s = Some [setup_schedule now]) \/
  (exists now mounting data,
      (now, Settle (PSchedule mounting) (ScheduleData data)) ∈ trace /\
      schedules s = data).
Proof.
  assert (forall trace s0 s effs,
             run trace s0 = Some (s, effs) ->
             schedules s = schedules s0 \/
             (exists now, (now, Mounted (Some "setup")) ∈ trace /\
                          schedules s = Some [setup_schedule now]) \/
             (exists now mounting data,
                 (now, Settle (PSchedule mounting) (ScheduleData data)) ∈ trace /\
                 schedules s = data)) as Hgen.
  { clear. induction trace as [| [now ev] trace IH]; intros s0 s effs Hrun.
    - injection Hrun as <- _. auto.
    - apply run_cons_inv in Hrun as (s1 & effs1 & effs2 & Hstep & Hrun & _).
      destruct (IH _ _ _ Hrun)
        as [Hsame | [(now' & Hin & Heq) | (now' & m & d & Hin & Heq)]].
      + rewrite Hsame.
        destruct (step_schedules _ _ _ _ _ Hstep)
          as [Hsame1 | [[-> Heq] | (m & d & -> & Heq)]]; [auto | |].
        * right. left. exists now. split; [apply list_elem_of_here | exact Heq].
        * right. right. exists now, m, d. split; [apply list_elem_of_here | exact Heq].
      + right. left. exists now'. split; [apply elem_of_cons; auto | exact Heq].
      + right. right. exists now', m, d. split; [apply elem_of_cons; auto | exact Heq]. }
  intros Hrun. destruct (Hgen _ _ _ _ Hrun) as [Hsame | H]; [| right; exact H].
  left. rewrite Hsame. reflexivity.
Qed.

(** *** [schedulesPreviews] and [tabActive] *)

Lemma step_schedulesPreviews (now : Z) (ev : Event) (s s' : State) (effs : list Effect) :
  step now ev s = Some (s', effs) ->
  schedulesPreviews s'
  = match ev with
    | Updated (Some x) => [x]
    | Updated None => []
    | _ => schedulesPreviews s
    end.
Proof.
  destruct ev as [route_name | dateObj | | schedule | calendars | p r]; unfold_step.
  - pair_inv s'. unfold_onMounted. case_bool_decide; reflexivity.
  - pair_inv s'. unfold_handlers. destruct (_ || _); reflexivity.
  - pair_inv s'. reflexivity.
  - pair_inv s'. destruct schedule; reflexivity.
  - pair_inv s'. reflexivity.
  - destruct (take_out p (inflight s)) as [rest |]; [| discriminate].
    destruct p as [| mounting | url]; unfold_handlers.
    + destruct r; try discriminate; pair_inv s'; reflexivity.
    + destruct r as [| data | |]; try discriminate.
      * destruct mounting; pair_inv s'; reflexivity.
      * pair_inv s'. reflexivity.
    + destruct r as [| | [data |] |]; try discriminate; pair_inv s'; reflexivity.
Qed.

Lemma run_schedulesPreviews_kept (trace : list (Z * Event)) (s s' : State)
    (effs : list Effect) :
  run trace s = Some (s', effs) ->
  Forall (fun x => is_updated (snd x) = false) trace ->
  schedulesPreviews s' = schedulesPreviews s.
Proof.
  revert s effs. induction trace as [| [now ev] trace IH]; intros s effs Hrun Hno.
  - injection Hrun as <- _. reflexivity.
  - apply run_cons_inv in Hrun as (s1 & effs1 & effs2 & Hstep & Hrun & _).
    apply Forall_cons in Hno as [Hev Hno]. cbn [snd] in Hev.
    rewrite (IH _ _ Hrun Hno), (step_schedulesPreviews _ _ _ _ _ Hstep).
    destruct ev; try reflexivity. discriminate Hev.
Qed.

(** X8: the previews are those of the last [updated] event: its
    schedule alone, or none when it carried no schedule; whatever
    happens afterwards, short of another [updated] event, leaves them
    alone. *)
Theorem schedulesPreviews_last_updated (before after : list (Z * Event)) (now : Z)
    (schedule : option ScheduleAppointment) (s0 s : State) (effs : list Effect) :
  run (before ++ (now, Updated schedule) :: after) s0 = Some (s, effs) ->
  Forall (fun x => is_updated (snd x) = false) after ->
  schedulesPreviews s = match schedule with Some x => [x] | None => [] end.
Proof.
  intros Hrun Hno.
  apply run_app_inv in Hrun as (s1 & effs1 & effs2 & _ & Hrun & _).
  apply run_cons_inv in Hrun as (s2 & effs3 & effs4 & Hstep & Hrun & _).
  rewrite (run_schedulesPreviews_kept _ _ _ _ Hrun Hno),
    (step_schedulesPreviews _ _ _ _ _ Hstep).
  destruct schedule; reflexivity.
Qed.

Lemma step_tabActive (now : Z) (ev : Event) (s s' : State) (effs : list Effect) :
  step now ev s = Some (s', effs) -> tabActive s' = tabActive s.
Proof.
  destruct ev as [route_name | dateObj | | schedule | calendars | p r]; unfold_step.
  - pair_inv s'. unfold_onMounted. case_bool_decide; reflexivity.
  - pair_inv s'. unfold_handlers. destruct (_ || _); reflexivity.
  - pair_inv s'. reflexivity.
  - pair_inv s'. reflexivity.
  - pair_inv s'. reflexivity.
  - destruct (take_out p (inflight s)) as [rest |]; [| discriminate].
    destruct p as [| mounting | url]; unfold_handlers.
    + destruct r; try discriminate; pair_inv s'; reflexivity.
    + destruct r as [| data | |]; try discriminate.
      * destruct mounting; pair_inv s'; reflexivity.
      * pair_inv s'. reflexivity.
    + destruct r as [| | [data |] |]; try discriminate; pair_inv s'; reflexivity.
Qed.

(** X9: in every state the component reaches, at most one preview is
    held and the active tab is the month view: no handler sets
    [tabActive]. *)
Theorem previews_and_tab (now0 : Z) (route_date : option string)
    (calendars : list Calendar.t) (trace : list (Z * Event)) (s : State)
    (effs : list Effect) :
  run trace (init now0 route_date calendars) = Some (s, effs) ->
  tabActive s = BookingCalendarView.Month /\ (length (schedulesPreviews s) <= 1)%nat.
Proof.
  assert (forall trace s0 s effs,
             run trace s0 = Some (s, effs) ->
             tabActive s = tabActive s0 /\
             ((length (schedulesPreviews s0) <= 1)%nat ->
              (length (schedulesPreviews s) <= 1)%nat)) as Hgen.
  { clear. induction trace as [| [now ev] trace IH]; intros s0 s effs Hrun.
    - injection Hrun as <- _. auto.
    - apply run_cons_inv in Hrun as (s1 & effs1 & effs2 & Hstep & Hrun & _).
      destruct (IH _ _ _ Hrun) as [Htab Hlen].
      rewrite Htab, (step_tabActive _ _ _ _ _ Hstep). split; [reflexivity |].
      intros H0. apply Hlen. rewrite (step_schedulesPreviews _ _ _ _ _ Hstep).
      destruct ev as [| | | [x |] | |]; cbn; lia. }
  intros Hrun. destruct (Hgen _ _ _ _ Hrun) as [Htab Hlen].
  split; [rewrite Htab; reflexivity | apply Hlen; cbn; lia].
Qed.

(** *** Requests *)

(** X10: whatever happens, the component sends nothing but the refresh
    of the stores, the request for the schedules, and requests for the
    remote events of a calendar whose upper bound is a formatted date
    (or the text of the invalid date). *)
Theorem requests_shape (trace : list (Z * Event)) (s0 s : State) (effs : list Effect)
    (e : Effect) :
  run trace s0 = Some (s, effs) -> e ∈ effs ->
  e = ERefresh \/ e = ECall "schedule/" \/
  exists calendar from x,
    e = ECall ("rmt/cal/" +:+ Dayjs.decimal (Calendar.id calendar) +:+ "/" +:+ from
               +:+ "/" +:+ Dayjs.format_ymd x).
Proof.
  revert s0 effs. induction trace as [| [now ev] trace IH]; intros s0 effs Hrun Hin.
  - injection Hrun as _ <-. apply elem_of_nil in Hin. contradiction.
  - apply run_cons_inv in Hrun as (s1 & effs1 & effs2 & Hstep & Hrun & ->).
    apply elem_of_app in Hin as [Hin | Hin]; [| eapply IH; eassumption].
    destruct (step_effects _ _ _ _ _ Hstep)
      as [-> | [-> | [-> | (from & to & s2 & ->)]]].
    + apply elem_of_nil in Hin. contradiction.
    + apply list_elem_of_singleton in Hin. auto.
    + apply list_elem_of_singleton in Hin. auto.
    + rewrite getRemoteEvents_requests in Hin.
      apply list_elem_of_In, in_map_iff in Hin as (calendar & <- & _).
      right. right. eexists calendar, from, _. reflexivity.
Qed.

Lemma take_out_kept (p q : Pending) (l rest : list Pending) :
  take_out p l = Some rest -> q ∈ rest -> q ∈ l.
Proof.
  intros Hto Hin. destruct (take_out_elem p l (take_out_Some _ _ _ Hto))
    as (rest' & Hto' & Hperm).
  rewrite Hto in Hto'. injection Hto' as <-. rewrite Hperm. apply elem_of_cons. auto.
Qed.

Ltac both_inv s' effs :=
  let H := fresh "H" in
  let Hs := fresh "Hs" in
  let He := fresh "He" in
  intros H;
  pose proof (f_equal (option_map fst) H) as Hs;
  pose proof (f_equal (option_map snd) H) as He;
  cbn [option_map fst snd] in Hs, He;
  injection Hs as Hs; injection He as He; subst s' effs; clear H.

(** X11: while no calendar is connected, the component never asks for
    remote events and its event list stays empty. *)
Theorem no_calendars_no_events (now0 : Z) (route_date : option string)
    (trace : list (Z * Event)) (s : State) (effs : list Effect) :
  run trace (init now0 route_date []) = Some (s, effs) ->
  Forall (fun x => is_calendars_changed (snd x) = false) trace ->
  calendarEvents s = [] /\
  Forall (fun e => e = ERefresh \/ e = ECall "schedule/") effs.
Proof.
  assert (forall trace s0 s effs,
             run trace s0 = Some (s, effs) ->
             Forall (fun x => is_calendars_changed (snd x) = false) trace ->
             connectedCalendars s0 = [] -> calendarEvents s0 = [] ->
             (forall url, PRemote url ∉ inflight s0) ->
             calendarEvents s = [] /\
             Forall (fun e => e = ERefresh \/ e = ECall "schedule/") effs) as Hgen.
  { clear. induction trace as [| [now ev] trace IH];
      intros s0 s effs Hrun Hno Hcal Hev Hfl.
    - injection Hrun as <- <-. auto.
    - apply run_cons_inv in Hrun as (s1 & effs1 & effs2 & Hstep & Hrun & ->).
      apply Forall_cons in Hno as [Hnc Hno]. cbn [snd] in Hnc.
      assert (connectedCalendars s1 = [] /\ calendarEvents s1 = [] /\
              (forall url, PRemote url ∉ inflight s1) /\
              Forall (fun e => e = ERefresh \/ e = ECall "schedule/") effs1)
        as (Hcal1 & Hev1 & Hfl1 & Heffs1).
      { revert Hstep. unfold_step.
        destruct ev as [route_name | dateObj | | schedule | calendars | p r];
          try discriminate Hnc.
        - both_inv s1 effs1. unfold_onMounted.
          case_bool_decide; cbn; repeat split; auto.
          intros url [Hin | Hin]%elem_of_app; [exact (Hfl _ Hin) |].
          apply list_elem_of_singleton in Hin. discriminate Hin.
        - unfold_handlers. rewrite Hcal. destruct (_ || _); both_inv s1 effs1; cbn;
            rewrite ?app_nil_r; repeat split; auto.
        - both_inv s1 effs1. cbn. repeat split; auto.
          intros url [Hin | Hin]%elem_of_app; [exact (Hfl _ Hin) |].
          apply list_elem_of_singleton in Hin. discriminate Hin.
        - both_inv s1 effs1. cbn. repeat split; auto.
        - destruct (take_out p (inflight s0)) as [rest |] eqn:Hto; [| discriminate].
          assert (forall url, PRemote url ∉ rest) as Hrest
            by (intros url Hin; exact (Hfl url (take_out_kept _ _ _ _ Hto Hin))).
          destruct p as [| mounting | url]; unfold_handlers.
          + destruct r; try discriminate; both_inv s1 effs1; cbn; repeat split; auto.
            intros url [Hin | Hin]%elem_of_app; [exact (Hrest _ Hin) |].
            apply list_elem_of_singleton in Hin. discriminate Hin.
          + destruct r as [| data | |]; try discriminate.
            * rewrite Hcal. destruct mounting; both_inv s1 effs1; cbn;
                rewrite ?app_nil_r; repeat split; auto.
            * both_inv s1 effs1. cbn. repeat split; auto.
          + exfalso. exact (Hfl url (take_out_Some _ _ _ Hto)). }
      destruct (IH _ _ _ Hrun Hno Hcal1 Hev1 Hfl1) as [Hev2 Heffs2].
      split; [exact Hev2 | apply Forall_app; auto]. }
  intros Hrun Hno. apply (Hgen _ _ _ _ Hrun Hno); try reflexivity.
  intros url Hin. cbn in Hin. apply elem_of_nil in Hin. exact Hin.
Qed.

(** *** Schedules after [created] *)

(** X12: on [created] the schedules are asked for again; when the reply
    arrives the schedule list is what it delivered and the schedule
    consumed is its first entry, or none when nothing or no list was
    delivered; the event list, [schedulesReady] and the active date
    stay as they are and no remote events are asked for. *)
Theorem created_refetch (now1 now2 : Z) (data : option (list Schedule.t)) (s : State) :
  exists s',
    run [(now1, Created); (now2, Settle (PSchedule false) (ScheduleData data))] s
    = Some (s', [ECall "schedule/"]) /\
    schedules s' = data /\
    firstSchedule s' = match data with Some l => head l | None => None end /\
    calendarEvents s' = calendarEvents s /\ schedulesReady s' = schedulesReady s /\
    activeDate s' = activeDate s /\ Permutation (inflight s') (inflight s).
Proof.
  destruct (take_out_elem (PSchedule false) (inflight s ++ [PSchedule false]))
    as (rest & Hto & Hperm).
  { apply elem_of_app. right. apply list_elem_of_here. }
  exists (set_schedules data (set_inflight rest (set_inflight (inflight s ++ [PSchedule false]) s))).
  split; [| split; [reflexivity | split; [| repeat split]]].
  - simpl_run. unfold_step. cbn [getFirstSchedule inflight set_inflight]. rewrite Hto.
    reflexivity.
  - unfold firstSchedule. cbn. destruct data as [[| x l] |]; reflexivity.
  - cbn. apply (Permutation_cons_inv (a := PSchedule false)).
    rewrite <- Hperm. rewrite Permutation_app_comm. reflexivity.
Qed.

(** *** Replies in any order *)

Lemma answers_remote (order : list (Z * string * Reply)) :
  Forall (fun x => remote_reply (snd x) = true) order
  <-> Forall (fun a => remote_reply (snd a) = true) (map answer order).
Proof. rewrite Forall_map. reflexivity. Qed.

Lemma answers_dated (order : list (Z * string * Reply)) :
  Forall (fun x => Forall dated (delivered (snd x))) order
  <-> Forall (fun a => Forall dated (delivered (snd a))) (map answer order).
Proof. rewrite Forall_map. reflexivity. Qed.

Lemma answers_inflight (order : list (Z * string * Reply)) :
  map (fun x => PRemote (snd (fst x))) order
  = map (fun a => PRemote (fst a)) (map answer order).
Proof. rewrite map_map. reflexivity. Qed.

(** Without their durations, the stored events are the delivered ones. *)
Lemma contribution_without_duration (now : Z) (r : Reply) :
  map (delete "duration") (contribution dj_other now r)
  = map (delete "duration") (delivered r).
Proof.
  destruct r as [| data | [data |] |]; try reflexivity.
  cbn [contribution delivered]. rewrite map_map. apply map_ext.
  intros event. unfold_with_duration. apply delete_insert_eq.
Qed.

Lemma events_without_duration (order : list (Z * string * Reply)) :
  map (delete "duration")
      (flat_map (fun x => contribution dj_other (fst (fst x)) (snd x)) order)
  = flat_map (fun a => map (delete "duration") (delivered (snd a))) (map answer order).
Proof.
  induction order as [| x order IH]; [reflexivity |].
  cbn [flat_map map]. rewrite map_app, IH, contribution_without_duration. reflexivity.
Qed.

(** The duration of a dated event does not depend on the clock. *)
Lemma with_duration_dated (now now' : Z) (event : RemoteEvent) :
  dated event -> with_duration now event = with_duration now' event.
Proof.
  intros [[v1 H1] [v2 H2]]. unfold_with_duration. rewrite H1, H2.
  destruct v1, v2; reflexivity.
Qed.

Lemma events_dated (order : list (Z * string * Reply)) :
  Forall (fun x => Forall dated (delivered (snd x))) order ->
  flat_map (fun x => contribution dj_other (fst (fst x)) (snd x)) order
  = flat_map (fun a => contribution dj_other 0 (snd a)) (map answer order).
Proof.
  induction order as [| [[now url] r] order IH]; [reflexivity |].
  intros [Hr Hall]%Forall_cons. cbn [flat_map map answer fst snd] in *.
  rewrite (IH Hall). f_equal.
  destruct r as [| data | [data |] |]; try reflexivity.
  cbn [contribution delivered] in *. apply map_ext_in.
  intros event Hin. apply with_duration_dated.
  rewrite Forall_forall in Hr. apply Hr, list_elem_of_In, Hin.
Qed.

(** X13: the fetches of remote events may settle in any order and at
    any clock readings: two runs in which the same requests get the
    same replies end with the same requests in flight and with the same
    events, up to the order of the event list and the durations stored
    with the events; when every delivered event has a start and an end,
    the durations are the same as well. *)
Theorem settle_order_irrelevant (order1 order2 : list (Z * string * Reply)) (s : State)
    (rest : list Pending) :
  Permutation (map answer order1) (map answer order2) ->
  Forall (fun x => remote_reply (snd x) = true) order1 ->
  Permutation (inflight s) (map (fun x => PRemote (snd (fst x))) order1 ++ rest) ->
  exists s1 s2,
    run (settles order1) s = Some (s1, []) /\
    run (settles order2) s = Some (s2, []) /\
    Permutation (map (delete "duration") (calendarEvents s1))
                (map (delete "duration") (calendarEvents s2)) /\
    Permutation (inflight s1) (inflight s2) /\
    (Forall (fun x => Forall dated (delivered (snd x))) order1 ->
     Permutation (calendarEvents s1) (calendarEvents s2)).
Proof.
  intros Hperm Hall Hfl.
  destruct (run_settles order1 s rest Hall Hfl) as (s1 & Hrun1 & Hev1 & Hfl1 & _).
  destruct (run_settles order2 s rest) as (s2 & Hrun2 & Hev2 & Hfl2 & _).
  { apply answers_remote. rewrite <- Hperm. apply answers_remote, Hall. }
  { rewrite answers_inflight, <- Hperm, <- answers_inflight. exact Hfl. }
  exists s1, s2. split; [exact Hrun1 |]. split; [exact Hrun2 |].
  split; [| split].
  - rewrite Hev1, Hev2, !map_app, !events_without_duration.
    apply Permutation_app_head, Permutation_flat_map, Hperm.
  - rewrite Hfl1, Hfl2. reflexivity.
  - intros Hdated. rewrite Hev1, Hev2, !events_dated.
    + apply Permutation_app_head, Permutation_flat_map, Hperm.
    + apply answers_dated. rewrite <- Hperm. apply answers_dated, Hdated.
    + exact Hdated.
Qed.

(** *** Durations *)

(** X14: an event that has neither a start nor an end is stored with
    the duration 0, and one whose start or end is [null] with the
    duration NaN. *)
Theorem duration_without_dates (now : Z) (event : RemoteEvent) :
  (event !! "start" = None -> event !! "end" = None ->
   with_duration now event !! "duration" = Some (VNum (Dayjs.Num 0))) /\
  (event !! "start" = Some VNull \/ event !! "end" = Some VNull ->
   with_duration now event !! "duration" = Some (VNum Dayjs.NaN)).
Proof.
  unfold_with_duration. rewrite lookup_insert_eq. split.
  - intros -> ->. cbn. rewrite Z.sub_diag. reflexivity.
  - intros [-> | ->]; cbn; [destruct (dj now (event !! "end")) | ]; reflexivity.
Qed.

(** X15: the duration stored for an event that does not end before it
    starts is the number of whole minutes between its start and its
    end: it is not negative and less than a minute is lost.  An event
    that ends before it starts gets a duration that is not positive. *)
Theorem duration_whole_minutes (now : Z) (event : RemoteEvent) (t_start t_end : Z) :
  dj now (event !! "start") = Some t_start ->
  dj now (event !! "end") = Some t_end ->
  exists d,
    with_duration now event !! "duration" = Some (VNum (Dayjs.Num d)) /\
    (t_start <= t_end -> 0 <= d /\ d * 60000 <= t_end - t_start < (d + 1) * 60000) /\
    (t_end <= t_start -> d <= 0 /\ (d - 1) * 60000 < t_end - t_start <= d * 60000).
Proof.
  intros Hs He. exists (Z.quot (t_end - t_start) 60000).
  unfold_with_duration. rewrite lookup_insert_eq, Hs, He.
  split; [reflexivity |].
  split; intros Hle; Z.quot_rem_to_equations; lia.
Qed.

(** *** Unreadable dates *)

(** X16: the dates of a date change are not checked: when neither can
    be read, the active date becomes invalid, and unless the stored
    range is invalid as well the event list is emptied and every
    connected calendar is asked for the events from "Invalid Date" to
    "Invalid Date" (the date library reading no date out of that text
    either). *)
Theorem onDateChange_unreadable (now : Z) (dateObj : TimeFormatted.t) (s : State) :
  dj now (Some (VStr (TimeFormatted.start dateObj))) = None ->
  dj now (Some (VStr (TimeFormatted.end_ dateObj))) = None ->
  dj now (Some (VStr "Invalid Date")) = None ->
  Dayjs.format_ym (DateRange.end_ (activeDateRange s)) <> "Invalid Date" ->
  activeDate (fst (onDateChange now dateObj s)) = None /\
  calendarEvents (fst (onDateChange now dateObj s)) = [] /\
  snd (onDateChange now dateObj s)
  = map (fun calendar =>
           ECall ("rmt/cal/" +:+ Dayjs.decimal (Calendar.id calendar)
                  +:+ "/Invalid Date/Invalid Date"))
        (connectedCalendars s).
Proof.
  intros Hs He Hinv Hrange. unfold_onDateChange. rewrite Hs, He.
  cbn [Dayjs.diff_minutes Dayjs.add_minutes_div Dayjs.format_ym Dayjs.format_ymd
       activeDateRange set_activeDate].
  apply String.eqb_neq in Hrange. unfold Dayjs.invalid_date. rewrite Hrange.
  cbn [negb orb]. unfold_getRemoteEvents. cbn [fst snd]. rewrite Hinv.
  split; [reflexivity |]. split; [reflexivity |].
  rewrite map_map. apply map_ext. intros calendar. reflexivity.
Qed.

(** *** The same query twice *)

Lemma single_call (urls : list string) (url : string) :
  map ECall urls = [ECall url] -> urls = [url].
Proof.
  destruct urls as [| u [| u' urls]]; try discriminate. intros [= ->]. reflexivity.
Qed.

(** X17: a date change that asks one calendar for its events asks
    again when it is repeated, and when both replies arrive the events
    are in the event list twice. *)
Theorem repeated_date_change_duplicates (now1 now2 now3 now4 : Z)
    (dateObj : TimeFormatted.t) (s : State) (url : string) (data : list RemoteEvent) :
  snd (onDateChange now1 dateObj s) = [ECall url] ->
  exists s',
    run [(now1, DateChange dateObj); (now2, DateChange dateObj);
         (now3, Settle (PRemote url) (RemoteData (Some data)));
         (now4, Settle (PRemote url) (RemoteData (Some data)))] s
    = Some (s', [ECall url; ECall url]) /\
    calendarEvents s' = map (with_duration now3) data ++ map (with_duration now4) data.
Proof.
  intros Hone.
  assert (forall now (s0 : State),
             activeDateRange s0 = activeDateRange s ->
             connectedCalendars s0 = connectedCalendars s ->
             snd (onDateChange now dateObj s0) = [ECall url] /\
             calendarEvents (fst (onDateChange now dateObj s0)) = [] /\
             inflight (fst (onDateChange now dateObj s0)) = inflight s0 ++ [PRemote url] /\
             activeDateRange (fst (onDateChange now dateObj s0)) = activeDateRange s /\
             connectedCalendars (fst (onDateChange now dateObj s0)) = connectedCalendars s)
    as Hsame.
  { intros now s0 Hrange Hcal. revert Hone. unfold_onDateChange.
    cbn [activeDateRange set_activeDate]. rewrite Hrange.
    destruct (_ || _); [| discriminate]. unfold_getRemoteEvents.
    cbn [fst snd connectedCalendars set_activeDate set_inflight set_calendarEvents
         calendarEvents inflight activeDateRange].
    rewrite Hcal. intros Hone.
    match goal with
    | |- context [map ECall ?l] =>
        assert (l = [url]) as -> by exact (single_call _ _ Hone)
    end.
    repeat split; try reflexivity; assumption. }
  destruct (Hsame now1 s eq_refl eq_refl) as (He1 & _ & Hfl1 & Hr1 & Hc1).
  destruct (Hsame now2 (fst (onDateChange now1 dateObj s)) Hr1 Hc1)
    as (He2 & Hev2 & Hfl2 & _ & _).
  set (s2 := fst (onDateChange now2 dateObj (fst (onDateChange now1 dateObj s)))) in *.
  destruct (step_settle_remote now3 url (RemoteData (Some data)) s2)
    as (rest3 & _ & Hp3 & Hstep3);
    [rewrite Hfl2; apply elem_of_app; right; apply list_elem_of_here | reflexivity |].
  set (s3 := set_calendarEvents _ (set_inflight rest3 s2)) in Hstep3.
  destruct (step_settle_remote now4 url (RemoteData (Some data)) s3)
    as (rest4 & _ & _ & Hstep4); [| reflexivity |].
  { assert (Permutation rest3 (inflight s ++ [PRemote url])) as Hrest.
    { apply (Permutation_cons_inv (a := PRemote url)).
      rewrite <- Hp3, Hfl2, Hfl1. apply Permutation_app_comm. }
    cbn. rewrite Hrest. apply elem_of_app. right. apply list_elem_of_here. }
  eexists. split.
  - simpl_run. unfold_step.
    rewrite (surjective_pairing (onDateChange now1 dateObj s)), He1.
    fold (step now2 (DateChange dateObj) (fst (onDateChange now1 dateObj s))).
    unfold_step.
    rewrite (surjective_pairing
               (onDateChange now2 dateObj (fst (onDateChange now1 dateObj s)))), He2.
    fold s2. fold (step now3 (Settle (PRemote url) (RemoteData (Some data))) s2).
    rewrite Hstep3.
    fold (step now4 (Settle (PRemote url) (RemoteData (Some data))) s3).
    rewrite Hstep4. reflexivity.
  - cbn. rewrite Hev2. reflexivity.
Qed.

(** *** A date in the route *)

(** X18: with a formatted date in the route, the component opens on
    that date whatever the clock reads: the active date is its
    midnight and the stored range is its month. *)
Theorem init_route_date (now : Z) (c : Dayjs.civil) (calendars : list Calendar.t) :
  Dayjs.valid_civil c -> 100 <= Dayjs.year c <= 9999 ->
  activeDate (init now (Some (Dayjs.ymd c)) calendars)
  = Some (Dayjs.day_of_civil (Dayjs.year c) (Dayjs.month c) (Dayjs.day c) * Dayjs.msPerDay) /\
  Dayjs.format_ymd (activeDate (init now (Some (Dayjs.ymd c)) calendars)) = Dayjs.ymd c /\
  Dayjs.format_ym (DateRange.start (activeDateRange (init now (Some (Dayjs.ymd c)) calendars)))
  = Dayjs.ym c /\
  Dayjs.format_ym (DateRange.end_ (activeDateRange (init now (Some (Dayjs.ymd c)) calendars)))
  = Dayjs.ym c.
Proof.
  intros Hc Hy.
  assert (activeDate (init now (Some (Dayjs.ymd c)) calendars)
          = dj now (Some (VStr (Dayjs.ymd c)))) as Hact.
  { unfold_init. cbn [activeDate]. unfold Dayjs.ymd at 1, Dayjs.pad4.
    destruct ((0 <=? Dayjs.year c) && (Dayjs.year c <? 10000)) eqn:Hr; [reflexivity |].
    apply andb_false_iff in Hr as [Hr | Hr]; [apply Z.leb_gt in Hr | apply Z.ltb_ge in Hr];
      lia. }
  destruct (format_dj_ymd now c Hc Hy) as [Hf Hm].
  replace (activeDateRange (init now (Some (Dayjs.ymd c)) calendars))
    with (DateRange.Build
            (Dayjs.startOf_month (activeDate (init now (Some (Dayjs.ymd c)) calendars)))
            (Dayjs.endOf_month (activeDate (init now (Some (Dayjs.ymd c)) calendars))))
    by reflexivity.
  cbn [DateRange.start DateRange.end_].
  assert (Dayjs.year_kept (activeDate (init now (Some (Dayjs.ymd c)) calendars))) as Hkept.
  { rewrite Hact, dj_ymd by assumption. cbn [Dayjs.year_kept].
    rewrite DayjsFacts.civil_of_ms_midnight.
    destruct c as [y m d]. destruct Hc as [Hcm Hcd].
    cbn [Dayjs.year Dayjs.month Dayjs.day] in *.
    rewrite DayjsFacts.civil_of_day_of_civil by assumption. cbn [Dayjs.year]. lia. }
  rewrite DayjsFacts.format_ym_startOf_month, DayjsFacts.format_ym_endOf_month
    by exact Hkept.
  rewrite Hact. split; [apply dj_ymd; assumption |]. auto.
Qed.

End ComponentFacts.

(** C1, at the last day of a leap February. *)
Lemma getRemoteEvents_upper_bound_witness :
  snd (getRemoteEvents Sample.dj_other Sample.noon "2024-02-01" "2024-02-29" Sample.s0)
  = [ECall "rmt/cal/1/2024-02-01/2024-03-01"; ECall "rmt/cal/2/2024-02-01/2024-03-01"].
Proof.
  apply (getRemoteEvents_upper_bound Sample.dj_other Sample.noon "2024-02-01"
           (Dayjs.Civil 2024 2 29) Sample.s0).
  - unfold Dayjs.valid_civil. vm_compute. intuition congruence.
  - vm_compute. intuition congruence.
Defined.

(** C4: a list whose first schedule is inactive and whose second is
    active; the inactive one is consumed. *)
Lemma firstSchedule_inactive :
  ~ consumes_active.
Proof.
  intros H.
  destruct (H (set_schedules (Some [Sample.inactive; Sample.active]) Sample.s0)
              [Sample.inactive; Sample.active] Sample.active)
    as (x & Hx & Hact).
  - reflexivity.
  - set_solver.
  - reflexivity.
  - cbn in Hx. injection Hx as <-. discriminate Hact.
Qed.

(** ** The availability engine *)

Module EngineFacts.
Import Engine.

(** *** Merging *)

Lemma insert_by_start_sorted (x : Interval) (l : list Interval) :
  Sorted le_start l -> Sorted le_start (insert_by_start x l).
Proof.
  induction 1 as [| y l Hsorted IH Hhd]; cbn [insert_by_start].
  - repeat constructor.
  - destruct (Z.leb_spec (start x) (start y)) as [Hle | Hgt].
    + repeat constructor; assumption.
    + constructor; [exact IH |].
      destruct l as [| z l]; cbn [insert_by_start].
      * constructor. unfold le_start. lia.
      * destruct (Z.leb_spec (start x) (start z)); constructor.
        -- unfold le_start. lia.
        -- inversion Hhd. assumption.
Qed.

Lemma sort_by_start_sorted (l : list Interval) : Sorted le_start (sort_by_start l).
Proof.
  induction l as [| x l IH]; cbn [sort_by_start];
    [constructor | apply insert_by_start_sorted, IH].
Qed.

(** Sorting leaves a sorted list as it is. *)
Lemma sort_by_start_id (l : list Interval) : Sorted le_start l -> sort_by_start l = l.
Proof.
  induction 1 as [| x l Hsorted IH Hhd]; [reflexivity |].
  cbn [sort_by_start]. rewrite IH.
  destruct Hhd as [| y l Hxy]; [reflexivity |].
  cbn [insert_by_start]. unfold le_start in Hxy.
  destruct (Z.leb_spec (start x) (start y)); [reflexivity | lia].
Qed.

Lemma coalesce_from_head (cur : Interval) (rest : list Interval) :
  exists y l, coalesce_from cur rest = y :: l /\ start y = start cur.
Proof.
  revert cur. induction rest as [| x rest IH]; intros cur; cbn [coalesce_from].
  - eauto.
  - destruct (start x <=? end_ cur); [| eauto].
    destruct (IH (mkInterval (start cur) (Z.max (end_ cur) (end_ x))))
      as (y & l & -> & Hy). eauto.
Qed.

Lemma coalesce_from_apart (cur : Interval) (rest : list Interval) :
  Sorted le_start (cur :: rest) -> Sorted apart (coalesce_from cur rest).
Proof.
  revert cur. induction rest as [| x rest IH]; intros cur Hs; cbn [coalesce_from].
  - repeat constructor.
  - apply Sorted_inv in Hs as [Hrest Hhd]. apply HdRel_inv in Hhd.
    destruct (Z.leb_spec (start x) (end_ cur)) as [Hin | Hout].
    + apply IH. apply Sorted_inv in Hrest as [Hrest' Hhd'].
      constructor; [exact Hrest' |].
      destruct Hhd' as [| z l Hxz]; constructor.
      unfold le_start in *. cbn [start]. lia.
    + constructor; [apply IH, Hrest |].
      destruct (coalesce_from_head x rest) as (y & l & -> & Hy).
      constructor. unfold apart, le_start in *. lia.
Qed.

(** Coalescing leaves intervals that lie apart as they are. *)
Lemma coalesce_from_id (cur : Interval) (rest : list Interval) :
  Sorted apart (cur :: rest) -> coalesce_from cur rest = cur :: rest.
Proof.
  revert cur. induction rest as [| x rest IH]; intros cur Hs; [reflexivity |].
  cbn [coalesce_from]. apply Sorted_inv in Hs as [Hrest Hhd].
  apply HdRel_inv in Hhd as [_ Hgap].
  destruct (Z.leb_spec (start x) (end_ cur)); [lia |].
  rewrite IH by exact Hrest. reflexivity.
Qed.

Lemma merge_apart (xs : list Interval) : Sorted apart (merge xs).
Proof.
  unfold merge, coalesce. pose proof (sort_by_start_sorted xs) as Hs.
  destruct (sort_by_start xs) as [| x l]; [constructor |].
  apply coalesce_from_apart, Hs.
Qed.

Lemma apart_le_start (l : list Interval) : Sorted apart l -> Sorted le_start l.
Proof.
  induction 1 as [| x l Hs IH Hhd]; constructor; [exact IH |].
  destruct Hhd as [| y l [Hle _]]; constructor. exact Hle.
Qed.

#[local] Instance apart_trans : Transitive apart.
Proof. intros a b c [H1 H2] [H3 H4]. unfold apart. lia. Qed.

Lemma StronglySorted_lookup {A : Type} (R : A -> A -> Prop) (l : list A) :
  StronglySorted R l ->
  forall (i j : nat) (a b : A),
    (i < j)%nat -> l !! i = Some a -> l !! j = Some b -> R a b.
Proof.
  induction 1 as [| x l Hs IH Hall]; intros i j a b Hij Ha Hb.
  - rewrite lookup_nil in Ha. discriminate.
  - destruct j as [| j]; [lia |]. cbn in Hb. destruct i as [| i].
    + cbn in Ha. injection Ha as <-. rewrite List.Forall_forall in Hall.
      apply Hall, list_elem_of_In. eapply list_elem_of_lookup_2, Hb.
    + cbn in Ha. apply (IH i j); [lia | assumption | assumption].
Qed.

(** C6: merging a merged sequence changes nothing, and a merged
    sequence is sorted by start with no two of its intervals
    overlapping. *)
Theorem merge_idempotent (xs : list Interval) :
  merge (merge xs) = merge xs /\
  sorted_by_start (merge xs) /\
  pairwise_disjoint (merge xs).
Proof.
  pose proof (merge_apart xs) as Hap.
  pose proof (Sorted_StronglySorted apart_trans Hap) as Hstrong.
  split; [| split].
  - unfold merge at 1. rewrite sort_by_start_id by (apply apart_le_start, Hap).
    unfold coalesce. destruct (merge xs) as [| x l]; [reflexivity |].
    apply coalesce_from_id, Hap.
  - intros i j a b Hij Ha Hb.
    destruct (StronglySorted_lookup _ _ Hstrong i j a b Hij Ha Hb) as [Hle _]. exact Hle.
  - intros i j a b Hij Ha Hb. unfold overlaps.
    destruct (Nat.lt_total i j) as [Hlt | [Heq | Hgt]]; [| contradiction |].
    + destruct (StronglySorted_lookup _ _ Hstrong i j a b Hlt Ha Hb) as [_ Hgap].
      apply andb_false_iff. right. apply Z.ltb_ge. lia.
    + destruct (StronglySorted_lookup _ _ Hstrong j i b a Hgt Hb Ha) as [_ Hgap].
      apply andb_false_iff. left. apply Z.ltb_ge. lia.
Qed.

(** *** The slot grid *)

Lemma emit_elem (fuel : nat) (dur stop t : Z) (p : Z * Z) :
  0 < dur -> p ∈ emit fuel dur stop t ->
  t <= fst p /\ snd p = fst p + dur /\ snd p <= stop.
Proof.
  intros Hdur. revert t. induction fuel as [| fuel IH]; intros t; cbn [emit].
  - intros Hin. apply elem_of_nil in Hin. contradiction.
  - destruct (Z.leb_spec (t + dur) stop) as [Hfit | Hno].
    + intros [-> | Hin]%elem_of_cons; [cbn; lia |].
      destruct (IH _ Hin) as (H1 & H2 & H3). lia.
    + intros Hin. apply elem_of_nil in Hin. contradiction.
Qed.

(** The fuel of [daily_grid] is enough: the grid holds every slot that
    fits into the daily window. *)
Lemma emit_enough (fuel : nat) (dur stop t : Z) :
  0 < dur -> stop - t <= Z.of_nat fuel ->
  emit fuel dur stop t
  = map (fun k => (t + k * dur, t + k * dur + dur)) (seqZ 0 ((stop - t) / dur)).
Proof.
  intros Hdur. revert t. induction fuel as [| fuel IH]; intros t Hfuel; cbn [emit].
  - rewrite seqZ_nil; [reflexivity |]. Z.div_mod_to_equations. nia.
  - destruct (Z.leb_spec (t + dur) stop) as [Hfit | Hno].
    + assert (0 < (stop - t) / dur) as Hn by (Z.div_mod_to_equations; nia).
      rewrite seqZ_cons by exact Hn. cbn [map].
      rewrite Z.mul_0_l, Z.add_0_r. f_equal.
      rewrite IH by lia.
      replace ((stop - (t + dur)) / dur) with (Z.pred ((stop - t) / dur))
        by (Z.div_mod_to_equations; nia).
      change (Z.succ 0) with (1 + 0). rewrite <- fmap_add_seqZ.
      change (Z.add 1 <$> seqZ 0 (Z.pred ((stop - t) / dur)))
        with (map (Z.add 1) (seqZ 0 (Z.pred ((stop - t) / dur)))).
      rewrite map_map. apply map_ext. intros k. f_equal; lia.
    + rewrite seqZ_nil; [reflexivity |]. Z.div_mod_to_equations. nia.
Qed.

Lemma daily_grid_spec (schedule : Schedule) :
  0 < slot_duration schedule ->
  daily_grid schedule
  = map (fun k => (start_time schedule + k * slot_duration schedule,
                   start_time schedule + k * slot_duration schedule
                   + slot_duration schedule))
        (seqZ 0 ((end_time schedule - start_time schedule) / slot_duration schedule)).
Proof.
  intros Hdur. unfold daily_grid.
  destruct (Z.ltb_spec 0 (slot_duration schedule)); [| lia].
  apply emit_enough; lia.
Qed.

Lemma weekday_add (d k : Z) : weekday (k + d) = (weekday d - 1 + k) mod 7 + 1.
Proof. unfold weekday. Z.div_mod_to_equations. lia. Qed.

Lemma weekday_range (d : Z) : 1 <= weekday d <= 7.
Proof. unfold weekday. Z.div_mod_to_equations. lia. Qed.

Lemma length_slots_of_day (schedule : Schedule) (d : Z) :
  length (slots_of_day schedule d)
  = if bool_decide (weekday d ∈ weekdays schedule)
    then length (daily_grid schedule) else 0%nat.
Proof.
  unfold slots_of_day. case_bool_decide; [apply length_map | reflexivity].
Qed.

(** A slot lies on a day of the schedule's weekdays, inside the daily
    window. *)
Lemma generate_elem (schedule : Schedule) (from to : Z) (x : Slot) :
  0 < slot_duration schedule ->
  x ∈ generate schedule from to ->
  exists d, from <= d < to /\ weekday d ∈ weekdays schedule /\
    d * minutesPerDay + start_time schedule <= slot_start x /\
    slot_end x = slot_start x + slot_duration schedule /\
    slot_end x <= d * minutesPerDay + end_time schedule.
Proof.
  intros Hdur Hin. unfold generate in Hin.
  apply list_elem_of_In, in_flat_map in Hin as (d & Hd & Hx).
  apply list_elem_of_In, elem_of_seqZ in Hd. exists d. split; [lia |].
  unfold slots_of_day in Hx. case_bool_decide as Hwd; [| contradiction].
  split; [exact Hwd |].
  apply in_map_iff in Hx as (p & <- & Hp). cbn [slot_start slot_end].
  unfold daily_grid in Hp. destruct (Z.ltb_spec 0 (slot_duration schedule)); [| lia].
  apply list_elem_of_In, emit_elem in Hp as (H1 & H2 & H3); lia.
Qed.

(** C5: for the schedule Monday to Friday, 09:00 to 17:00, slots of
    60 minutes, every range of seven days (each holds a Saturday and a
    Sunday) yields exactly 40 slots, and each slot lies on one of the
    days Monday to Friday. *)
Theorem generate_working_week (schedule : Schedule) (from : Z) :
  weekdays schedule = [1; 2; 3; 4; 5] ->
  start_time schedule = 540 -> end_time schedule = 1020 ->
  slot_duration schedule = 60 ->
  length (generate schedule from (from + 7)) = 40%nat /\
  (forall x, x ∈ generate schedule from (from + 7) ->
             1 <= weekday (slot_start x / minutesPerDay) <= 5) /\
  (exists d, from <= d < from + 7 /\ weekday d = 6) /\
  (exists d, from <= d < from + 7 /\ weekday d = 7).
Proof.
  intros Hwd Hst Het Hdur.
  assert (length (daily_grid schedule) = 8%nat) as Hgrid.
  { unfold daily_grid. rewrite Hst, Het, Hdur. reflexivity. }
  pose proof (weekday_range from) as Hr.
  assert (forall k, weekday (k + from) = (weekday from - 1 + k) mod 7 + 1) as Hk
    by (intros k; apply weekday_add).
  split; [| split].
  - unfold generate. replace (from + 7 - from) with 7 by lia.
    change (seqZ from 7)
      with [0 + from; 1 + from; 2 + from; 3 + from; 4 + from; 5 + from; 6 + from].
    cbn [flat_map]. rewrite !length_app, !length_slots_of_day, !Hk, Hwd, Hgrid.
    assert (weekday from = 1 \/ weekday from = 2 \/ weekday from = 3 \/ weekday from = 4
            \/ weekday from = 5 \/ weekday from = 6 \/ weekday from = 7) as C by lia.
    repeat (destruct C as [C | C]; [rewrite C; reflexivity |]).
    rewrite C. reflexivity.
  - intros x Hx. apply generate_elem in Hx as (d & Hd & Hin & H1 & H2 & H3); [| lia].
    rewrite Hst, Het, Hdur in *.
    replace (slot_start x / minutesPerDay) with d
      by (unfold minutesPerDay in *; Z.div_mod_to_equations; lia).
    rewrite Hwd in Hin.
    repeat (apply elem_of_cons in Hin as [-> | Hin]; [lia |]).
    apply elem_of_nil in Hin. contradiction.
  - split.
    + exists ((6 - weekday from) mod 7 + from). split.
      * Z.div_mod_to_equations. lia.
      * rewrite Hk. Z.div_mod_to_equations. lia.
    + exists ((7 - weekday from) mod 7 + from). split.
      * Z.div_mod_to_equations. lia.
      * rewrite Hk. Z.div_mod_to_equations. lia.
Qed.

(** *** The booking window *)

Lemma allowedRange_start (schedule : Schedule) (now : Z) :
  now + earliest_booking schedule <= start (allowedRange schedule now).
Proof.
  unfold allowedRange, window_start. destruct (_ <? _); cbn [start]; lia.
Qed.

(** C7: the allowed range is [[now + earliest_booking, now +
    farthest_booking)] clipped to the validity of the schedule; when
    nothing is left of it, the range returned is empty, with start and
    end equal; the range never starts before [now + earliest_booking],
    and neither does any slot [compute] returns. *)
Theorem allowedRange_clipped (schedule : Schedule) (now : Z) :
  (window_start schedule now < window_end schedule now ->
   allowedRange schedule now
   = mkInterval (Z.max (now + earliest_booking schedule) (start_date schedule))
                (match end_date schedule with
                 | Some e => Z.min (now + farthest_booking schedule) e
                 | None => now + farthest_booking schedule
                 end)) /\
  (window_end schedule now <= window_start schedule now ->
   start (allowedRange schedule now) = end_ (allowedRange schedule now)) /\
  now + earliest_booking schedule <= start (allowedRange schedule now) /\
  (forall getEvents connectedCalendarIds pendingAppointments queryRange x,
      x ∈ fst (compute getEvents schedule connectedCalendarIds pendingAppointments
                       queryRange now) ->
      now + earliest_booking schedule <= slot_start x).
Proof.
  split; [| split; [| split]].
  - intros Hlt. unfold allowedRange.
    destruct (Z.ltb_spec (window_start schedule now) (window_end schedule now));
      [reflexivity | lia].
  - intros Hge. unfold allowedRange.
    destruct (Z.ltb_spec (window_start schedule now) (window_end schedule now));
      [lia | reflexivity].
  - apply allowedRange_start.
  - intros getEvents ids appts q x. unfold compute.
    destruct (negb (active schedule)); [intros H; apply elem_of_nil in H; contradiction |].
    destruct (is_empty _); [intros H; apply elem_of_nil in H; contradiction |].
    destruct (fetch _ _ _) as [busyRemote failures]. cbn [fst].
    intros [Hkeep _]%list_elem_of_filter.
    apply andb_true_iff in Hkeep as [Hinside _]. unfold inside in Hinside.
    apply andb_true_iff in Hinside as [Hlo _]. apply Z.leb_le in Hlo.
    pose proof (allowedRange_start schedule now). unfold intersect in Hlo.
    cbn [start] in Hlo. lia.
Qed.

End EngineFacts.

(** ** The statements at sample data *)

Local Abbreviation sample_run :=
  (run Sample.dj_other Sample.DEFAULT_SLOT_DURATION Sample.format_QalendarFullDay).
Local Abbreviation sample_step :=
  (step Sample.dj_other Sample.DEFAULT_SLOT_DURATION Sample.format_QalendarFullDay).
Local Abbreviation sample_getRemoteEvents := (getRemoteEvents Sample.dj_other).

(** C2: a request that is rejected and a request that delivers an empty
    list leave the same state behind, so no observation of the state
    holds the failures. *)
Lemma failure_not_recorded :
  ~ exists failures,
      records_failures Sample.dj_other Sample.DEFAULT_SLOT_DURATION
                       Sample.format_QalendarFullDay failures.
Proof.
  intros (failures & Hstart & Hsettle).
  pose (s1 := fst (sample_getRemoteEvents Sample.noon "2024-02-01" "2024-02-29" Sample.s0)).
  pose (s2 := set_inflight [PRemote Sample.february_home] s1).
  assert (sample_step Sample.noon (Settle (PRemote Sample.february_work) Rejected) s1
          = Some (s2, [])) as Hrejected by (vm_compute; reflexivity).
  assert (sample_step Sample.noon
            (Settle (PRemote Sample.february_work) (RemoteData (Some []))) s1
          = Some (s2, [])) as Hempty by (vm_compute; reflexivity).
  pose proof (Hsettle _ _ _ _ _ Hrejected Sample.february_work) as [_ Hthere].
  pose proof (Hsettle _ _ _ _ _ Hempty Sample.february_work) as [Hnot _].
  destruct (Hnot (Hthere (or_introl (conj eq_refl eq_refl)))) as [[_ Hf] | Hin].
  - discriminate Hf.
  - unfold s1 in Hin. rewrite Hstart in Hin. apply elem_of_nil in Hin. exact Hin.
Qed.

(** C2, at the February query: the second calendar fails, the event of
    the first is stored all the same. *)
Lemma failed_fetch_isolated_witness :
  exists s',
    sample_run (settles Sample.february_replies)
      (fst (sample_getRemoteEvents (Sample.noon + 9000) "2024-02-01" "2024-02-29" Sample.s0))
    = Some (s', []) /\
    calendarEvents s'
    = flat_map (fun x => contribution Sample.dj_other (fst (fst x)) (snd x))
               (filter (fun x => failed (snd x) = false) Sample.february_replies) /\
    Permutation (inflight s') (inflight Sample.s0).
Proof.
  apply (proj1 (failed_fetch_isolated Sample.dj_other Sample.DEFAULT_SLOT_DURATION
                  Sample.format_QalendarFullDay (Sample.noon + 9000)
                  "2024-02-01" "2024-02-29" Sample.s0 Sample.february_replies
                  ltac:(repeat constructor) ltac:(vm_compute; apply perm_swap))).
Defined.

(** C3: the February query is superseded by the March query; the reply
    to a February request then puts its event into the event list. *)
Lemma superseded_reply_stored :
  ~ discards_superseded Sample.dj_other Sample.DEFAULT_SLOT_DURATION
                        Sample.format_QalendarFullDay.
Proof.
  intros H.
  specialize (H Sample.noon (Sample.noon + 500) (Sample.noon + 900)
                "2024-02-01" "2024-02-29" "2024-03-01" "2024-03-31"
                Sample.s0 Sample.february_work (RemoteData (Some [Sample.meeting]))).
  cbv zeta in H.
  assert (exists s3,
             sample_step (Sample.noon + 900)
               (Settle (PRemote Sample.february_work) (RemoteData (Some [Sample.meeting])))
               (fst (sample_getRemoteEvents (Sample.noon + 500) "2024-03-01" "2024-03-31"
                       (fst (sample_getRemoteEvents Sample.noon "2024-02-01" "2024-02-29"
                               Sample.s0))))
             = Some (s3, []) /\ calendarEvents s3 <> [])
    as (s3 & Hstep & Hstored).
  { eexists. split; [vm_compute; reflexivity | vm_compute; discriminate]. }
  apply Hstored. rewrite (H s3).
  - reflexivity.
  - vm_compute. apply list_elem_of_here.
  - vm_compute. intros Hin.
    repeat (apply elem_of_cons in Hin as [Heq | Hin]; [discriminate Heq |]).
    apply elem_of_nil in Hin. exact Hin.
  - exact Hstep.
Qed.

(** C3, at a request in flight when the March query starts. *)
Lemma superseded_fetch_delivers_witness :
  calendarEvents
    (fst (sample_getRemoteEvents (Sample.noon + 500) "2024-03-01" "2024-03-31"
            (fst (sample_getRemoteEvents Sample.noon "2024-02-01" "2024-02-29" Sample.s0))))
  = [] /\
  PRemote Sample.february_work
    ∈ inflight
        (fst (sample_getRemoteEvents (Sample.noon + 500) "2024-03-01" "2024-03-31"
                (fst (sample_getRemoteEvents Sample.noon "2024-02-01" "2024-02-29"
                        Sample.s0)))) /\
  exists s2,
    sample_step (Sample.noon + 900)
      (Settle (PRemote Sample.february_work) (RemoteData (Some [Sample.meeting])))
      (fst (sample_getRemoteEvents (Sample.noon + 500) "2024-03-01" "2024-03-31"
              (fst (sample_getRemoteEvents Sample.noon "2024-02-01" "2024-02-29" Sample.s0))))
    = Some (s2, []) /\
    calendarEvents s2 = map (with_duration Sample.dj_other (Sample.noon + 900)) [Sample.meeting].
Proof.
  apply (superseded_fetch_delivers Sample.dj_other Sample.DEFAULT_SLOT_DURATION
           Sample.format_QalendarFullDay).
  vm_compute. apply list_elem_of_here.
Defined.

(** C8, after the sample session: the range is still January 2024. *)
Lemma activeDateRange_never_updated_witness :
  activeDateRange (fst Sample.after_browsing) = activeDateRange Sample.s0 /\
  Dayjs.format_ym (DateRange.start (activeDateRange Sample.s0)) = "202401" /\
  Dayjs.format_ym (DateRange.end_ (activeDateRange Sample.s0)) = "202401".
Proof.
  destruct (activeDateRange_never_updated Sample.dj_other Sample.DEFAULT_SLOT_DURATION
              Sample.format_QalendarFullDay Sample.noon None [Sample.work; Sample.home]
              Sample.browsing (fst Sample.after_browsing) (snd Sample.after_browsing))
    as (Hfixed & _ & Hends & Hmonth).
  - vm_compute. reflexivity.
  - split; [exact Hfixed |].
    assert (Dayjs.format_ym (DateRange.start (activeDateRange Sample.s0)) = "202401") as Hs.
    { transitivity (Dayjs.format_ym (activeDate Sample.s0));
        [apply Hmonth; vm_compute; intuition congruence | vm_compute; reflexivity]. }
    split; [exact Hs |].
    transitivity (Dayjs.format_ym (DateRange.start (activeDateRange Sample.s0)));
      [symmetry; exact Hends | exact Hs].
Defined.

Lemma stored_event_duration_witness :
  exists now url data event,
    (now, Settle (PRemote url) (RemoteData (Some data))) ∈ Sample.browsing /\
    event ∈ data /\
    with_duration Sample.dj_other (Sample.noon + 9400) Sample.meeting !! "duration"
    = Some (VNum (Dayjs.diff_minutes (dj Sample.dj_other now (event !! "end"))
                                     (dj Sample.dj_other now (event !! "start")))) /\
    (forall t_start t_end,
        dj Sample.dj_other now (event !! "start") = Some t_start ->
        dj Sample.dj_other now (event !! "end") = Some t_end ->
        with_duration Sample.dj_other (Sample.noon + 9400) Sample.meeting !! "duration"
        = Some (VNum (Dayjs.Num (Z.quot (t_end - t_start) 60000)))) /\
    (forall k : string,
        k <> "duration" ->
        with_duration Sample.dj_other (Sample.noon + 9400) Sample.meeting !! k = event !! k).
Proof.
  apply (stored_event_duration Sample.dj_other Sample.DEFAULT_SLOT_DURATION
           Sample.format_QalendarFullDay Sample.noon None [Sample.work; Sample.home]
           Sample.browsing (fst Sample.after_browsing) (snd Sample.after_browsing)).
  - vm_compute. reflexivity.
  - vm_compute. apply list_elem_of_here.
Defined.

(** C5, at the week that starts on Monday 2024-01-01. *)
Lemma generate_working_week_witness :
  length (Engine.generate Sample.office Sample.new_year (Sample.new_year + 7)) = 40%nat.
Proof.
  apply (EngineFacts.generate_working_week Sample.office Sample.new_year);
    reflexivity.
Defined.

(** C7, one day of lead time at noon of 2024-01-01: the window starts
    at noon of 2024-01-02. *)
Lemma allowedRange_clipped_witness :
  Engine.allowedRange Sample.office Sample.new_year_noon
  = Engine.mkInterval (19724 * 1440 + 720) (Sample.new_year_noon + 20160).
Proof.
  apply (proj1 (EngineFacts.allowedRange_clipped Sample.office Sample.new_year_noon)).
  vm_compute. reflexivity.
Defined.

(** *** The further statements at sample data *)

(** X2, at the date change to February 2024. *)
Lemma onDateChange_activeDate_witness :
  exists t,
    activeDate (fst (onDateChange Sample.dj_other Sample.noon Sample.february Sample.s0))
    = Some t /\
    Dayjs.day_of_civil 2024 2 1 * Dayjs.msPerDay <= t
      <= Dayjs.day_of_civil 2024 2 29 * Dayjs.msPerDay /\
    0 <= (Dayjs.day_of_civil 2024 2 29 * Dayjs.msPerDay - t)
         - (t - Dayjs.day_of_civil 2024 2 1 * Dayjs.msPerDay) < 60000.
Proof.
  apply (onDateChange_activeDate Sample.dj_other Sample.noon Sample.february Sample.s0).
  - vm_compute. reflexivity.
  - vm_compute. reflexivity.
  - vm_compute. discriminate.
Defined.

(** X3, at the date change from January to February 2024. *)
Lemma onDateChange_requests_witness :
  snd (onDateChange Sample.dj_other Sample.noon
         (TimeFormatted.Build (Dayjs.ymd Sample.february_first) (Dayjs.ymd Sample.leap_day))
         Sample.s0)
  = [ECall "rmt/cal/1/2024-02-01/2024-03-01"; ECall "rmt/cal/2/2024-02-01/2024-03-01"].
Proof.
  apply (onDateChange_requests Sample.dj_other Sample.noon Sample.february_first
           Sample.leap_day Sample.s0).
  - unfold Dayjs.valid_civil. vm_compute. intuition congruence.
  - vm_compute. intuition congruence.
  - unfold Dayjs.valid_civil. vm_compute. intuition congruence.
  - vm_compute. intuition congruence.
  - left. vm_compute. discriminate.
Defined.

(** X4, at the mount of the dashboard in January 2024. *)
Lemma mounted_loads_witness :
  exists s' urls,
    urls
    = map (fun calendar =>
             "rmt/cal/" +:+ Dayjs.decimal (Calendar.id calendar) +:+ "/"
             +:+ Dayjs.ymd (Dayjs.Civil (Dayjs.year (Dayjs.civil_of_ms Sample.noon))
                              (Dayjs.month (Dayjs.civil_of_ms Sample.noon)) 1)
             +:+ "/"
             +:+ Dayjs.ymd
                   (Dayjs.next_day
                      (Dayjs.Civil (Dayjs.year (Dayjs.civil_of_ms Sample.noon))
                         (Dayjs.month (Dayjs.civil_of_ms Sample.noon))
                         (Dayjs.days_in_month (Dayjs.year (Dayjs.civil_of_ms Sample.noon))
                            (Dayjs.month (Dayjs.civil_of_ms Sample.noon))))))
          [Sample.work; Sample.home] /\
    sample_run [(Sample.noon, Mounted (Some "dashboard"));
                (Sample.noon + 120, Settle PRefresh RefreshDone);
                (Sample.noon + 250,
                 Settle (PSchedule true) (ScheduleData (Some [Sample.active])))]
               Sample.s0
    = Some (s', ERefresh :: ECall "schedule/" :: map ECall urls) /\
    inflight s' = map PRemote urls /\
    schedules s' = Some [Sample.active] /\ schedulesReady s' = true /\
    calendarEvents s' = [] /\ activeDate s' = Some Sample.noon.
Proof.
  apply (mounted_loads Sample.dj_other Sample.DEFAULT_SLOT_DURATION
           Sample.format_QalendarFullDay Sample.noon Sample.noon (Sample.noon + 120)
           (Sample.noon + 250) None [Sample.work; Sample.home] (Some "dashboard")
           (Some [Sample.active]) Sample.noon).
  - discriminate.
  - reflexivity.
  - vm_compute. intuition congruence.
Defined.

(** X5, at a refresh that is rejected. *)
Lemma mounted_rejected_witness :
  sample_run [(Sample.noon, Mounted (Some "dashboard"));
              (Sample.noon + 120, Settle PRefresh Rejected)] Sample.s0
  = Some (Sample.s0, [ERefresh]).
Proof.
  apply (mounted_rejected Sample.dj_other Sample.DEFAULT_SLOT_DURATION
           Sample.format_QalendarFullDay Sample.noon Sample.noon (Sample.noon + 120) 0
           None [Sample.work; Sample.home] (Some "dashboard")).
  discriminate.
Defined.

(** X6, after the sample session. *)
Lemma schedulesReady_iff_witness :
  schedulesReady (fst Sample.after_browsing) = true <->
  (exists now, (now, Mounted (Some "setup")) ∈ Sample.browsing) \/
  (exists now data,
      (now, Settle (PSchedule true) (ScheduleData data)) ∈ Sample.browsing).
Proof.
  apply (schedulesReady_iff Sample.dj_other Sample.DEFAULT_SLOT_DURATION
           Sample.format_QalendarFullDay Sample.noon None [Sample.work; Sample.home]
           Sample.browsing (fst Sample.after_browsing) (snd Sample.after_browsing)).
  vm_compute. reflexivity.
Defined.

(** X7, after the sample session. *)
Lemma schedules_provenance_witness :
  schedules (fst Sample.after_browsing) = Some [] \/
  (exists now,
      (now, Mounted (Some "setup")) ∈ Sample.browsing /\
      schedules (fst Sample.after_browsing)
      = Some [setup_schedule Sample.dj_other Sample.DEFAULT_SLOT_DURATION
                Sample.format_QalendarFullDay now]) \/
  (exists now mounting data,
      (now, Settle (PSchedule mounting) (ScheduleData data)) ∈ Sample.browsing /\
      schedules (fst Sample.after_browsing) = data).
Proof.
  apply (schedules_provenance Sample.dj_other Sample.DEFAULT_SLOT_DURATION
           Sample.format_QalendarFullDay Sample.noon None [Sample.work; Sample.home]
           Sample.browsing (fst Sample.after_browsing) (snd Sample.after_browsing)).
  vm_compute. reflexivity.
Defined.

(** X8, after an edit followed by a date change and a save. *)
Lemma schedulesPreviews_last_updated_witness :
  schedulesPreviews (fst Sample.after_previewing) = [Sample.preview].
Proof.
  apply (schedulesPreviews_last_updated Sample.dj_other Sample.DEFAULT_SLOT_DURATION
           Sample.format_QalendarFullDay []
           [(Sample.noon + 10, DateChange Sample.february); (Sample.noon + 20, Created)]
           Sample.noon (Some Sample.preview) Sample.s0
           (fst Sample.after_previewing) (snd Sample.after_previewing)).
  - vm_compute. reflexivity.
  - repeat constructor.
Defined.

(** X9, after the sample session. *)
Lemma previews_and_tab_witness :
  tabActive (fst Sample.after_browsing) = BookingCalendarView.Month /\
  (length (schedulesPreviews (fst Sample.after_browsing)) <= 1)%nat.
Proof.
  apply (previews_and_tab Sample.dj_other Sample.DEFAULT_SLOT_DURATION
           Sample.format_QalendarFullDay Sample.noon None [Sample.work; Sample.home]
           Sample.browsing (fst Sample.after_browsing) (snd Sample.after_browsing)).
  vm_compute. reflexivity.
Defined.

(** X10, at a request of the sample session. *)
Lemma requests_shape_witness :
  ECall Sample.february_work = ERefresh \/
  ECall Sample.february_work = ECall "schedule/" \/
  exists calendar from x,
    ECall Sample.february_work
    = ECall ("rmt/cal/" +:+ Dayjs.decimal (Calendar.id calendar) +:+ "/" +:+ from
             +:+ "/" +:+ Dayjs.format_ymd x).
Proof.
  apply (requests_shape Sample.dj_other Sample.DEFAULT_SLOT_DURATION
           Sample.format_QalendarFullDay Sample.browsing Sample.s0
           (fst Sample.after_browsing) (snd Sample.after_browsing)).
  - vm_compute. reflexivity.
  - vm_compute. do 4 apply list_elem_of_further. apply list_elem_of_here.
Defined.

(** X11, at the dashboard with no calendar connected. *)
Lemma no_calendars_no_events_witness :
  calendarEvents (fst Sample.after_offline) = [] /\
  Forall (fun e => e = ERefresh \/ e = ECall "schedule/") (snd Sample.after_offline).
Proof.
  apply (no_calendars_no_events Sample.dj_other Sample.DEFAULT_SLOT_DURATION
           Sample.format_QalendarFullDay Sample.noon None Sample.offline).
  - vm_compute. reflexivity.
  - repeat constructor.
Defined.

(** X13, at the replies to the February query in both orders. *)
Lemma settle_order_irrelevant_witness :
  exists s1 s2,
    sample_run (settles Sample.february_replies)
      (fst (sample_getRemoteEvents (Sample.noon + 9000) "2024-02-01" "2024-02-29" Sample.s0))
    = Some (s1, []) /\
    sample_run (settles Sample.february_replies_swapped)
      (fst (sample_getRemoteEvents (Sample.noon + 9000) "2024-02-01" "2024-02-29" Sample.s0))
    = Some (s2, []) /\
    Permutation (calendarEvents s1) (calendarEvents s2) /\
    Permutation (inflight s1) (inflight s2).
Proof.
  destruct (settle_order_irrelevant Sample.dj_other Sample.DEFAULT_SLOT_DURATION
              Sample.format_QalendarFullDay Sample.february_replies
              Sample.february_replies_swapped
              (fst (sample_getRemoteEvents (Sample.noon + 9000) "2024-02-01" "2024-02-29"
                      Sample.s0)) [])
    as (s1 & s2 & Hrun1 & Hrun2 & _ & Hfl & Hev).
  - apply perm_swap.
  - repeat constructor.
  - vm_compute. apply perm_swap.
  - exists s1, s2. split; [exact Hrun1 |]. split; [exact Hrun2 |].
    split; [| exact Hfl]. apply Hev.
    repeat constructor; cbn; eexists; reflexivity.
Defined.

Lemma duration_whole_minutes_witness :
  exists d,
    with_duration Sample.dj_other Sample.noon Sample.meeting !! "duration"
    = Some (VNum (Dayjs.Num d)) /\
    (Dayjs.day_of_civil 2024 2 5 * Dayjs.msPerDay <= Dayjs.day_of_civil 2024 2 6 * Dayjs.msPerDay ->
     0 <= d /\
     d * 60000
     <= Dayjs.day_of_civil 2024 2 6 * Dayjs.msPerDay - Dayjs.day_of_civil 2024 2 5 * Dayjs.msPerDay
     < (d + 1) * 60000) /\
    (Dayjs.day_of_civil 2024 2 6 * Dayjs.msPerDay <= Dayjs.day_of_civil 2024 2 5 * Dayjs.msPerDay ->
     d <= 0 /\
     (d - 1) * 60000
     < Dayjs.day_of_civil 2024 2 6 * Dayjs.msPerDay - Dayjs.day_of_civil 2024 2 5 * Dayjs.msPerDay
     <= d * 60000).
Proof.
  apply (duration_whole_minutes Sample.dj_other Sample.noon Sample.meeting).
  - vm_compute. reflexivity.
  - vm_compute. reflexivity.
Defined.

(** X16, at a date change whose dates cannot be read. *)
Lemma onDateChange_unreadable_witness :
  activeDate (fst (onDateChange Sample.dj_other Sample.noon Sample.unreadable Sample.s0))
  = None /\
  calendarEvents (fst (onDateChange Sample.dj_other Sample.noon Sample.unreadable Sample.s0))
  = [] /\
  snd (onDateChange Sample.dj_other Sample.noon Sample.unreadable Sample.s0)
  = map (fun calendar =>
           ECall ("rmt/cal/" +:+ Dayjs.decimal (Calendar.id calendar)
                  +:+ "/Invalid Date/Invalid Date"))
        (connectedCalendars Sample.s0).
Proof.
  apply (onDateChange_unreadable Sample.dj_other Sample.noon Sample.unreadable Sample.s0).
  - reflexivity.
  - reflexivity.
  - reflexivity.
  - vm_compute. discriminate.
Defined.

(** X17, at the date change to February 2024, twice, with one calendar. *)
Lemma repeated_date_change_duplicates_witness :
  exists s',
    sample_run
      [(Sample.noon, DateChange Sample.february);
       (Sample.noon + 10, DateChange Sample.february);
       (Sample.noon + 20, Settle (PRemote Sample.february_work)
                            (RemoteData (Some [Sample.meeting])));
       (Sample.noon + 30, Settle (PRemote Sample.february_work)
                            (RemoteData (Some [Sample.meeting])))]
      Sample.s_work
    = Some (s', [ECall Sample.february_work; ECall Sample.february_work]) /\
    calendarEvents s'
    = map (with_duration Sample.dj_other (Sample.noon + 20)) [Sample.meeting]
      ++ map (with_duration Sample.dj_other (Sample.noon + 30)) [Sample.meeting].
Proof.
  apply (repeated_date_change_duplicates Sample.dj_other Sample.DEFAULT_SLOT_DURATION
           Sample.format_QalendarFullDay).
  vm_compute. reflexivity.
Defined.

(** X18, at the route date 2024-02-29 while the clock reads January. *)
Lemma init_route_date_witness :
  Dayjs.format_ymd
    (activeDate (init Sample.dj_other Sample.noon (Some (Dayjs.ymd Sample.leap_day))
                   [Sample.work]))
  = "2024-02-29" /\
  Dayjs.format_ym
    (DateRange.start
       (activeDateRange (init Sample.dj_other Sample.noon (Some (Dayjs.ymd Sample.leap_day))
                           [Sample.work])))
  = "202402" /\
  Dayjs.format_ym
    (DateRange.end_
       (activeDateRange (init Sample.dj_other Sample.noon (Some (Dayjs.ymd Sample.leap_day))
                           [Sample.work])))
  = "202402".
Proof.
  apply (init_route_date Sample.dj_other Sample.noon Sample.leap_day [Sample.work]).
  - unfold Dayjs.valid_civil. vm_compute. intuition congruence.
  - vm_compute. intuition congruence.
Defined.

(** *** Examples *)

Example stored_meeting_duration :
  with_duration Sample.dj_other Sample.noon Sample.meeting !! "duration"
  = Some (VNum (Dayjs.Num 1440)).
Proof. vm_compute. reflexivity. Qed.

Example end_of_year_request :
  snd (sample_getRemoteEvents Sample.noon "2023-12-01" "2023-12-31" Sample.s0)
  = [ECall "rmt/cal/1/2023-12-01/2024-01-01"; ECall "rmt/cal/2/2023-12-01/2024-01-01"].
Proof. vm_compute. reflexivity. Qed.

Example browsing_requests :
  snd Sample.after_browsing
  = [ERefresh; ECall "schedule/";
     ECall "rmt/cal/1/2024-01-01/2024-02-01"; ECall "rmt/cal/2/2024-01-01/2024-02-01";
     ECall "rmt/cal/1/2024-02-01/2024-03-01"; ECall "rmt/cal/2/2024-02-01/2024-03-01"].
Proof. vm_compute. reflexivity. Qed.

Example merge_busy :
  Engine.merge Sample.busy = [Engine.mkInterval 10 40; Engine.mkInterval 50 90].
Proof. vm_compute. reflexivity. Qed.

Example first_slot_after_lead_time :
  head (fst (Engine.compute (fun _ _ => Some Sample.busy) Sample.office [1] []
               (Engine.mkInterval (19723 * 1440) (19730 * 1440)) Sample.new_year_noon))
  = Some (Engine.mkSlot (19724 * 1440 + 720) (19724 * 1440 + 780) Sample.office).
Proof. vm_compute. reflexivity. Qed.

Example years_padded :
  Dayjs.pad4 7 = "0007" /\ Dayjs.pad4 (-5) = "00-5" /\ Dayjs.pad4 12345 = "12345".
Proof. vm_compute. auto. Qed.

Example window_closed_before_lead_time :
  Engine.allowedRange
    (Engine.mkSchedule true 0 (Some (19723 * 1440 + 900)) 540 1020 1440 20160 [1; 2; 3; 4; 5] 60 true)
    Sample.new_year_noon
  = Engine.mkInterval (19724 * 1440 + 720) (19724 * 1440 + 720).
Proof. vm_compute. reflexivity. Qed.

Example weekend_days_skipped :
  map (fun x => Engine.weekday (Engine.slot_start x / Engine.minutesPerDay))
      (Engine.generate Sample.office (Sample.new_year + 4) (Sample.new_year + 8))
  = repeat 5 8 ++ repeat 1 8.
Proof. vm_compute. reflexivity. Qed.

(** A route date of the year 99 gives the range December 1999: a
    change to that month fetches nothing, a change to the day of the
    route date fetches. *)
Example range_of_year_99 :
  let s := init Sample.dj_other Sample.noon Sample.year_99 [Sample.work] in
  Dayjs.format_ymd (activeDate s) = "0099-12-31" /\
  activeDateRange s = DateRange.Build (Some 944006400000) (Some 946684799999) /\
  Dayjs.format_ymd (DateRange.start (activeDateRange s)) = "1999-12-01" /\
  Dayjs.format_ymd (DateRange.end_ (activeDateRange s)) = "1999-12-31" /\
  snd (onDateChange Sample.dj_other Sample.noon
         (TimeFormatted.Build "1999-12-01" "1999-12-31") s) = [] /\
  snd (onDateChange Sample.dj_other Sample.noon
         (TimeFormatted.Build "0100-01-00" "0100-01-00") s)
  = [ECall "rmt/cal/1/0099-12-31/2000-01-01"].
Proof. vm_compute. auto 10. Qed.

(** The duration stored for an event without an end follows the clock. *)
Example open_ended_duration_follows_clock :
  with_duration Sample.dj_other Sample.noon Sample.open_ended !! "duration"
  = Some (VNum (Dayjs.Num (-29520))) /\
  with_duration Sample.dj_other (Sample.noon + 10 * Dayjs.msPerMinute) Sample.open_ended
  !! "duration"
  = Some (VNum (Dayjs.Num (-29510))).
Proof. vm_compute. auto. Qed.
